(** * The convention-based route loader of [lib/server.js]

    A shallow embedding of [routeLoader]: the upward middleware walk, the
    recognition of handler and middleware exports, and the interception of
    the method-registration functions that merges a sibling [schema.json]
    into the options of every route. *)

From stdpp Require Import gmap strings list fin_maps pretty.
From Stdlib Require Import ZArith Ascii.

Open Scope string_scope.
Open Scope list_scope.
Open Scope nat_scope.
Set Warnings "-register-all".

(** ** JavaScript values *)

Module Js.

(** The values a schema, an options bag or a parsed JSON document can
    hold.  Objects are finite maps from property names to values. *)
Inductive value : Type :=
| VUndefined
| VNull
| VBool (b : bool)
| VNum (n : Z)
| VStr (s : string)
| VArr (xs : list value)
| VObj (props : gmap string value).

(** [if (v)] *)
Definition truthy (v : value) : bool :=
  match v with
  | VUndefined | VNull => false
  | VBool b => b
  | VNum n => negb (n =? 0)%Z
  | VStr s => negb (String.eqb s "")
  | VArr _ | VObj _ => true
  end.

(** [a ?? b] *)
Definition nullish (a b : value) : value :=
  match a with
  | VUndefined | VNull => b
  | _ => a
  end.

Definition index_key (i : nat) : string := pretty i.

Fixpoint chars (s : string) : list value :=
  match s with
  | EmptyString => []
  | String c r => VStr (String c EmptyString) :: chars r
  end.

(** The own enumerable properties that an object spread [...v] copies:
    the properties of an object, the indexed elements of an array, the
    indexed characters of a string, nothing for the other primitives. *)
Definition own_props (v : value) : gmap string value :=
  match v with
  | VObj props => props
  | VArr xs => list_to_map (imap (fun i x => (index_key i, x)) xs)
  | VStr s => list_to_map (imap (fun i x => (index_key i, x)) (chars s))
  | _ => ∅
  end.

(** The object literal [{...a, ...b}]: the properties of [a] are copied
    first, those of [b] are copied over them. *)
Definition spread2 (a b : value) : value :=
  VObj (own_props b ∪ own_props a).

End Js.

(** ** Paths

  An absolute, normalised POSIX path is the list of its components from
  the root ([/srv/api/users/index.js] is [["srv"; "api"; "users";
  "index.js"]], the root is [[]]).  The relative arguments handed to
  [path.resolve] stay the strings of the source. *)

Module Path.

Abbreviation path := (list string).

Definition slash : Ascii.ascii := "/"%char.

(** Splits a string at every [/]; [cur] is the component read so far. *)
Fixpoint split_at_slash (cur s : string) : list string :=
  match s with
  | EmptyString => [cur]
  | String c r =>
      if Ascii.eqb c slash then cur :: split_at_slash "" r
      else split_at_slash (cur +:+ String c EmptyString) r
  end.

Definition segments (rel : string) : list string := split_at_slash "" rel.

(** One component of a path being normalised: [..] drops the last
    component and stays at the root, [.] and the empty component leave
    the path alone. *)
Definition enter (p : path) (seg : string) : path :=
  if String.eqb seg ".." then removelast p
  else if String.eqb seg "" || String.eqb seg "." then p
  else p ++ [seg].

Definition is_absolute (rel : string) : bool :=
  match rel with
  | String c _ => Ascii.eqb c slash
  | EmptyString => false
  end.

(** [path.resolve(base, ...rels)] for an absolute [base]. *)
Definition resolve (base : path) (rels : list string) : path :=
  foldl (fun p rel => foldl enter (if is_absolute rel then [] else p) (segments rel))
        base rels.

(** [path.dirname] *)
Definition dirname (p : path) : path := removelast p.

(** [path.basename]; the basename of the root is the empty string. *)
Definition basename (p : path) : string := List.last p "".

(** [up.join('')] *)
Definition join (up : list string) : string := String.concat "" up.

End Path.
Import Path.

(** ** Modules, exports and the run-time environment *)

(** The HTTP methods whose registration functions are intercepted. *)
Inductive http_method := GET | POST | PUT | PATCH | DELETE | OPTIONS | HEAD.

Definition methods : list http_method := [GET; POST; PUT; PATCH; DELETE; OPTIONS; HEAD].

Definition method_name (m : http_method) : string :=
  match m with
  | GET => "get" | POST => "post" | PUT => "put" | PATCH => "patch"
  | DELETE => "delete" | OPTIONS => "options" | HEAD => "head"
  end.

(** The second and third arguments of a registration call, told apart the
    way [typeof] does.  [ArgObject] is any non-null value whose [typeof] is
    ['object'], seen through its properties. *)
Inductive arg :=
| ArgUndefined
| ArgNull
| ArgObject (props : gmap string Js.value)
| ArgFunction (f : nat)
| ArgBoolean (b : bool)
| ArgNumber (n : Z)
| ArgString (s : string).

(** [typeof a] *)
Definition typeof (a : arg) : string :=
  match a with
  | ArgUndefined => "undefined"
  | ArgNull | ArgObject _ => "object"
  | ArgFunction _ => "function"
  | ArgBoolean _ => "boolean"
  | ArgNumber _ => "number"
  | ArgString _ => "string"
  end.

(** One call [scope.<method>(url, a1, a2)] made by a handler body. *)
Record call := Call { c_method : http_method; c_url : string; c_arg1 : arg; c_arg2 : arg }.

Inductive func_kind := PlainFunction | AsyncFunction | GeneratorFunction | AsyncGeneratorFunction.

(** A function value: its kind, the [Symbol.toStringTag] property it was
    given by hand, if any, and the registration calls its body makes on the
    scope it receives. *)
Record func := Func { f_kind : func_kind; f_own_tag : option string; f_body : list call }.

(** What a module exports as [default]: a falsy value ([undefined] when
    there is no default export), a function, or any other truthy value
    with the [Symbol.toStringTag] it carries, if any. *)
Inductive exported :=
| EFalsy
| ECallable (f : func)
| EOther (tag : option string).

(** The value of [ns.default || ns]: the default export when it is
    truthy, the module namespace object otherwise. *)
Inductive handle :=
| HExport (e : exported)
| HNamespace.

Definition default_or_module (e : exported) : handle :=
  match e with
  | EFalsy => HNamespace
  | _ => HExport e
  end.

(** [handle[Symbol.toStringTag]]: only async and generator functions
    inherit one; a plain function has none. *)
Definition builtin_tag (k : func_kind) : option string :=
  match k with
  | PlainFunction => None
  | AsyncFunction => Some "AsyncFunction"
  | GeneratorFunction => Some "GeneratorFunction"
  | AsyncGeneratorFunction => Some "AsyncGeneratorFunction"
  end.

Definition to_string_tag (h : handle) : option string :=
  match h with
  | HExport (ECallable f) =>
      match f_own_tag f with
      | Some t => Some t
      | None => builtin_tag (f_kind f)
      end
  | HExport (EOther tag) => tag
  | HExport EFalsy => None
  | HNamespace => Some "Module"
  end.

(** The identifiers the module binds at its top level (lines 4 to 18). *)
Definition module_bindings : list string :=
  ["fastify"; "fp"; "glob"; "fastifySensible"; "fastifyAccepts"; "fastifyCookie";
   "fastifyCors"; "fastifyEtag"; "fastifyRequestContext"; "path"; "uuid";
   "addErrors"; "addFormats"; "addKeywords"; "logger"].

(** Everything outside the loader: the global object, the file system as
    [fast-glob] and [fs] show it, and the modules [import()] loads. *)
Record World := {
  (** whether the global object has a property [fs] holding Node's module *)
  global_fs : bool;
  (** [glob.sync([pattern])], the pattern given as a resolved path *)
  glob_sync : path -> list path;
  (** [fs.existsSync] *)
  exists_sync : path -> bool;
  (** [JSON.parse(fs.readFileSync(p))]; [None] when either call throws *)
  parse_file : path -> option Js.value;
  (** [import(p)]: the default export of the module, [None] when loading throws *)
  import_module : path -> option exported
}.

(** A free identifier is looked up in the module, then on the global object. *)
Definition identifier_bound (w : World) (x : string) : bool :=
  bool_decide (x ∈ module_bindings) || (String.eqb x "fs" && global_fs w).

(** ** Outcomes *)

Inductive error :=
| ReferenceError (x : string)
| TypeError
| LoadError (p : path).

Inductive result (A : Type) :=
| Ok (a : A)
| Raise (e : error).
Arguments Ok {A} a.
Arguments Raise {A} e.

(** ** The upward middleware walk (lines 119 to 140) *)

(** [fp(handle)] for the export of the middleware module at [source]. *)
Record plugin := Plugin { source : path; wrapped : handle }.

(** Lines 126 to 134: what one middleware file found by the glob adds to
    [middlewares].  The test [if (handle)] always passes: a module
    namespace object is truthy. *)
Definition visit (w : World) (middleware : path) : result (list plugin) :=
  if identifier_bound w "fs" then
    if exists_sync w middleware then
      match import_module w middleware with
      | None => Raise (LoadError middleware)
      | Some e =>
          let handle := default_or_module e in
          if bool_decide (to_string_tag handle = Some "AsyncFunction")
          then Ok [Plugin middleware handle]
          else Ok []
      end
    else Ok []
  else Raise (ReferenceError "fs").

(** The loop state: the two arrays of the source, and the patterns handed
    to [glob.sync] so far. *)
Record walk_state := Walk {
  up : list string;
  middlewares : list plugin;
  lookups : list path
}.

Inductive step :=
| Continue (st : walk_state)
| Break (st : walk_state)
| Abort (e : error) (st : walk_state).

Definition boundary : string := "handlers".

(** One iteration of the [while (true)] body. *)
Definition walk_step (w : World) (handler : path) (st : walk_state) : step :=
  let basename := basename (resolve handler [join (up st)]) in
  let pattern := resolve (dirname handler) [join (up st); "middleware.*"] in
  let seen := (lookups st ++ [pattern])%list in
  match glob_sync w pattern with
  | middleware :: _ =>
      match visit w middleware with
      | Raise e => Abort e (Walk (up st) (middlewares st) seen)
      | Ok pushed =>
          let collected := (middlewares st ++ pushed)%list in
          if String.eqb basename boundary
          then Break (Walk (up st) collected seen)
          else Continue (Walk (up st ++ ["../"])%list collected seen)
      end
  | [] => Break (Walk (up st) (middlewares st) seen)
  end.

(** How the loop ended, and the patterns it looked up. *)
Record walk_end := WalkEnd {
  w_result : result (list plugin);
  w_lookups : list path
}.

(** The loop, run for at most [fuel] iterations; [None] when [fuel]
    iterations did not reach a [break] or an exception. *)
Fixpoint walk_loop (w : World) (handler : path) (fuel : nat) (st : walk_state)
  : option walk_end :=
  match fuel with
  | O => None
  | S fuel' =>
      match walk_step w handler st with
      | Continue st' => walk_loop w handler fuel' st'
      | Break st' => Some (WalkEnd (Ok (middlewares st')) (lookups st'))
      | Abort e st' => Some (WalkEnd (Raise e) (lookups st'))
      end
  end.

Definition walk_init : walk_state := Walk ["../"] [] [].

(** The patterns looked up during the first [fuel] iterations, whether or
    not the loop ends within them. *)
Fixpoint walk_trace (w : World) (handler : path) (fuel : nat) (st : walk_state)
  : list path :=
  match fuel with
  | O => lookups st
  | S fuel' =>
      match walk_step w handler st with
      | Continue st' => walk_trace w handler fuel' st'
      | Break st' | Abort _ st' => lookups st'
      end
  end.

Definition walk (w : World) (handler : path) (fuel : nat) :=
  walk_loop w handler fuel walk_init.

(** ** The intercepted registration functions (lines 152 to 174) *)

(** The [options] variable: [null], or an object seen through its
    properties. *)
Inductive opts :=
| ONull
| OObject (props : gmap string Js.value).

(** [options.schema] *)
Definition get_schema (o : opts) : result Js.value :=
  match o with
  | ONull => Raise TypeError
  | OObject props => Ok (default Js.VUndefined (props !! "schema"))
  end.

(** One call forwarded to the original registration function. *)
Record forwarded := Forwarded {
  fw_method : http_method;
  fw_url : string;
  fw_options : opts;
  fw_route : arg
}.

(** The [schema] table of line 147 and the calls that reached the
    original registration functions. *)
Record scope := Scope {
  schema : gmap string Js.value;
  routes : list forwarded
}.

Definition empty_scope : scope := Scope ∅ [].

(** Lines 154 to 161. *)
Definition split_args (a1 a2 : arg) : opts * arg :=
  if String.eqb (typeof a1) "object" then
    (match a1 with ArgObject props => OObject props | _ => ONull end, a2)
  else if String.eqb (typeof a1) "function" then (OObject ∅, a1)
  else (OObject ∅, ArgUndefined).

Definition schema_file (handler : path) : path :=
  resolve (dirname handler) ["schema.json"].

(** The body of the [try] block, lines 164 and 165; [None] when it throws,
    which the [catch] swallows leaving [options] as it was. *)
Definition try_merge (w : World) (handler : path) (o : opts) : option opts :=
  match o with
  | ONull => None
  | OObject props =>
      let override := Js.nullish (default Js.VUndefined (props !! "schema")) (Js.VObj ∅) in
      match parse_file w (schema_file handler) with
      | None => None
      | Some file => Some (OObject (<["schema" := Js.spread2 override file]> props))
      end
  end.

(** Lines 162 to 169. *)
Definition merge_schema (w : World) (handler : path) (o : opts) : result opts :=
  if identifier_bound w "fs" then
    if exists_sync w (schema_file handler) then
      match try_merge w handler o with
      | Some o' => Ok o'
      | None => Ok o
      end
    else Ok o
  else Raise (ReferenceError "fs").

(** [`${method}${url}`] *)
Definition schema_key (m : http_method) (url : string) : string :=
  method_name m +:+ url.

(** The replacement installed for [_instance[method]], applied to one call. *)
Definition intercept (w : World) (handler : path) (c : call) (s : scope) : result scope :=
  let '(options, route) := split_args (c_arg1 c) (c_arg2 c) in
  match merge_schema w handler options with
  | Raise e => Raise e
  | Ok options =>
      match get_schema options with
      | Raise e => Raise e
      | Ok v =>
          let table :=
            if Js.truthy v then <[schema_key (c_method c) (c_url c) := v]> (schema s)
            else schema s in
          Ok (Scope table (routes s ++ [Forwarded (c_method c) (c_url c) options route])%list)
      end
  end.

(** The calls of a handler body, in order; the first exception ends it. *)
Fixpoint run_body (w : World) (handler : path) (body : list call) (s : scope)
  : result unit * scope :=
  match body with
  | [] => (Ok tt, s)
  | c :: rest =>
      match intercept w handler c s with
      | Ok s' => run_body w handler rest s'
      | Raise e => (Raise e, s)
      end
  end.

(** [await handle(_instance)]: a plain or async function runs its body on
    the wrapped scope, a generator function only returns its generator,
    and calling anything else is a TypeError. *)
Definition invoke (w : World) (handler : path) (h : handle) (s : scope)
  : result unit * scope :=
  match h with
  | HExport (ECallable f) =>
      match f_kind f with
      | PlainFunction | AsyncFunction => run_body w handler (f_body f) s
      | GeneratorFunction | AsyncGeneratorFunction => (Ok tt, s)
      end
  | _ => (Raise TypeError, s)
  end.

(** ** One discovered handler (lines 118 to 181) *)

Record loaded := Loaded {
  (** the plugins handed to [wrapper.register] at line 141, in order *)
  l_registered : list plugin;
  (** whether the call of the entry point at line 176 was reached *)
  l_invoked : bool;
  l_scope : scope;
  l_status : result unit
}.

Definition recognised : list string := ["AsyncFunction"; "Function"].

(** [['AsyncFunction', 'Function'].includes(tag)] *)
Definition includes (tag : option string) : bool :=
  match tag with
  | Some t => bool_decide (t ∈ recognised)
  | None => false
  end.

(** Lines 141 to 180, once the walk has returned [ms]. *)
Definition compose (w : World) (handler : path) (ms : list plugin) : loaded :=
  let chain := rev ms in
  match import_module w handler with
  | None => Loaded chain false empty_scope (Raise (LoadError handler))
  | Some e =>
      let handle := default_or_module e in
      if includes (to_string_tag handle) then
        let '(r, s) := invoke w handler handle empty_scope in
        Loaded chain true s r
      else Loaded chain false empty_scope (Ok tt)
  end.

(** The callback registered for one handler; [None] when the walk did not
    end within [fuel] iterations. *)
Definition load_handler (w : World) (handler : path) (fuel : nat) : option loaded :=
  match walk w handler fuel with
  | None => None
  | Some (WalkEnd (Raise e) _) => Some (Loaded [] false empty_scope (Raise e))
  | Some (WalkEnd (Ok ms) _) => Some (compose w handler ms)
  end.

(** [routeLoader]: every handler that the glob of line 115 discovered is
    loaded in a scope of its own. *)
Definition routeLoader (w : World) (discovered : list path) (fuel : nat)
  : list (path * option loaded) :=
  map (fun handler => (handler, load_handler w handler fuel)) discovered.

(** ** Levels of the walk

    Iteration [k] (counted from 0) runs with [k + 1] entries in [up].  It
    tests the name of [level_tested handler k] against the boundary and
    looks for a middleware file in [level_searched handler k]. *)

Definition ancestor (n : nat) (p : path) : path := Nat.iter n (@removelast string) p.

Definition level_tested (handler : path) (k : nat) : path :=
  ancestor (S k) handler.

Definition level_searched (handler : path) (k : nat) : path :=
  ancestor (S k) (dirname handler).

Definition level_pattern (handler : path) (k : nat) : path :=
  (level_searched handler k ++ ["middleware.*"])%list.

(** What iteration [k] adds to [middlewares] when it does not throw. *)
Definition contribution (w : World) (handler : path) (k : nat) : list plugin :=
  match glob_sync w (level_pattern handler k) with
  | middleware :: _ =>
      match visit w middleware with
      | Ok pushed => pushed
      | Raise _ => []
      end
  | [] => []
  end.

(** How iteration [k] ends. *)
Inductive ending := Goes | Stops | Fails (e : error).

Definition level_ending (w : World) (handler : path) (k : nat) : ending :=
  match glob_sync w (level_pattern handler k) with
  | middleware :: _ =>
      match visit w middleware with
      | Raise e => Fails e
      | Ok _ =>
          if String.eqb (basename (level_tested handler k)) boundary then Stops else Goes
      end
  | [] => Stops
  end.

(** The loop state at the start of iteration [k]. *)
Definition state_at (w : World) (handler : path) (k : nat) : walk_state :=
  Walk (repeat "../" (S k))
       (flat_map (contribution w handler) (seq 0 k))
       (map (level_pattern handler) (seq 0 k)).

(** How the walk ends when iteration [k] is its last. *)
Definition end_at (w : World) (handler : path) (k : nat) : option walk_end :=
  match level_ending w handler k with
  | Goes => None
  | Stops => Some (WalkEnd (Ok (middlewares (state_at w handler (S k)))) (lookups (state_at w handler (S k))))
  | Fails e => Some (WalkEnd (Raise e) (lookups (state_at w handler (S k))))
  end.


(** The directory [d] lies strictly above the directory [b]. *)
Definition strictly_above (d b : path) : Prop := ∃ rest, rest ≠ [] ∧ b = d ++ rest.

(** The value of [options.schema] as the handler passed it. *)
Definition inline_schema (c : call) : Js.value :=
  match (split_args (c_arg1 c) (c_arg2 c)).1 with
  | OObject props => default Js.VUndefined (props !! "schema")
  | ONull => Js.VUndefined
  end.

(** ** Fixtures: a world built from a list of files *)

Module Fixture.

Inductive entry :=
| ModuleFile (e : option exported)
| JsonFile (v : option Js.value).

Abbreviation disk := (list (path * entry)).

Definition find (d : disk) (p : path) : option entry :=
  snd <$> List.find (fun f => bool_decide (fst f = p)) d.

(** The files that a pattern [dir/middleware.*] matches. *)
Definition matches (pattern p : path) : bool :=
  bool_decide (dirname p = dirname pattern)
  && String.eqb (basename pattern) "middleware.*"
  && String.prefix "middleware." (basename p).

Definition world (fs : bool) (d : disk) : World := {|
  global_fs := fs;
  glob_sync pattern := filter (fun p => matches pattern p) (map fst d);
  exists_sync p := bool_decide (is_Some (find d p));
  parse_file p := match find d p with Some (JsonFile v) => v | _ => None end;
  import_module p := match find d p with Some (ModuleFile e) => e | _ => None end
|}.

Definition async (body : list call) : exported :=
  ECallable (Func AsyncFunction None body).

Definition plain (body : list call) : exported :=
  ECallable (Func PlainFunction None body).

Definition num (n : Z) : Js.value := Js.VNum n.

Definition obj (l : list (string * Js.value)) : Js.value := Js.VObj (list_to_map l).

End Fixture.

(** ** Scenarios *)

Module Scenario.
Import Fixture.

Definition users_handler : path := ["srv"; "api"; "users"; "index.js"].
Definition users_schema : path := ["srv"; "api"; "users"; "schema.json"].

Definition inline_a1 : Js.value := obj [("a", num 1)].
Definition file_a2_b3 : Js.value := obj [("a", num 2); ("b", num 3)].
Definition handler_wins : Js.value := obj [("a", num 1); ("b", num 3)].

(** [scope.get('/x', {schema: {a: 1}}, fn)] *)
Definition get_x_inline : call :=
  Call GET "/x" (ArgObject {["schema" := inline_a1]}) (ArgFunction 0).

(** [scope.get('/x', fn)] *)
Definition get_x_bare : call := Call GET "/x" (ArgFunction 0) ArgUndefined.

(** An async handler next to a [schema.json] holding [{a: 2, b: 3}]. *)
Definition merge_disk : disk :=
  [(users_handler, ModuleFile (Some (async [get_x_inline])));
   (users_schema, JsonFile (Some file_a2_b3))].

(** The same handler next to a [schema.json] that is not JSON. *)
Definition malformed_disk : disk :=
  [(users_handler, ModuleFile (Some (async [get_x_inline])));
   (users_schema, JsonFile None)].

(** A handler that declares no schema, next to a [schema.json]. *)
Definition bare_disk : disk :=
  [(users_handler, ModuleFile (Some (async [get_x_bare])));
   (users_schema, JsonFile (Some file_a2_b3))].

(** A handler exported as a plain function, and as an async one. *)
Definition plain_disk : disk := [(users_handler, ModuleFile (Some (plain [get_x_bare])))].
Definition async_disk : disk := [(users_handler, ModuleFile (Some (async [get_x_bare])))].

(** A plain function as the middleware one level above the handler's
    directory. *)
Definition sync_middleware_disk : disk :=
  [(users_handler, ModuleFile (Some (async [get_x_bare])));
   (["srv"; "api"; "middleware.js"], ModuleFile (Some (plain [])))].

(** A handler below a [handlers] directory, with a middleware file in
    that directory and one in its parent. *)
Definition boundary_handler : path := ["srv"; "api"; "handlers"; "users"; "index.js"].
Definition inner_middleware : path := ["srv"; "api"; "handlers"; "middleware.js"].
Definition outer_middleware : path := ["srv"; "api"; "middleware.js"].

Definition boundary_disk : disk :=
  [(boundary_handler, ModuleFile (Some (async [])));
   (inner_middleware, ModuleFile (Some (async [])));
   (outer_middleware, ModuleFile (Some (async [])))].

(** A project that lives in the root directory, with a middleware file
    next to its [api] directory. *)
Definition root_handler : path := ["api"; "index.js"].
Definition root_middleware : path := ["middleware.js"].

Definition root_disk : disk :=
  [(root_handler, ModuleFile (Some (async [])));
   (root_middleware, ModuleFile (Some (async [])))].

End Scenario.

(** ** The table and the forwarded calls *)

(** The table key under which a forwarded call is recorded. *)
Definition route_key (f : forwarded) : string := schema_key (fw_method f) (fw_url f).

Definition call_signature (c : call) : http_method * string := (c_method c, c_url c).

Definition route_signature (f : forwarded) : http_method * string :=
  (fw_method f, fw_url f).

(** Every entry of the table is a truthy schema that was forwarded with a
    call of that method and url. *)
Definition table_backed (s : scope) : Prop :=
  ∀ k v, schema s !! k = Some v →
    Js.truthy v = true
    ∧ ∃ f, f ∈ routes s ∧ route_key f = k ∧ get_schema (fw_options f) = Ok v.

(** Every call forwarded with a truthy schema has an entry in the table. *)
Definition routes_recorded (s : scope) : Prop :=
  ∀ f v, f ∈ routes s → get_schema (fw_options f) = Ok v → Js.truthy v = true →
    is_Some (schema s !! route_key f).

(** ** [bootstrap] (lines 20 to 106) *)

(** The values of the option bags handed to [fastify] and to the plugins:
    data, values known by name only and without enumerable properties of
    their own (the functions and the logger of the module, the functions
    of a custom server), arrays and objects of these. *)
Inductive setting :=
| SValue (v : Js.value)
| SRef (name : string)
| SList (xs : list setting)
| SObject (props : gmap string setting).

(** [if (x)]; a referenced function or object is truthy. *)
Definition setting_truthy (x : setting) : bool :=
  match x with
  | SValue v => Js.truthy v
  | _ => true
  end.

(** The properties that [...x] copies; a value known by name has none. *)
Definition setting_props (x : setting) : gmap string setting :=
  match x with
  | SValue v => SValue <$> Js.own_props v
  | SRef _ => ∅
  | SList xs => list_to_map (imap (fun i y => (Js.index_key i, y)) xs)
  | SObject props => props
  end.

(** [x?.k] for a property name [k] that is neither an index nor [length]. *)
Definition optional_get (x : setting) (k : string) : setting :=
  default (SValue Js.VUndefined) (setting_props x !! k).

(** The namespace of the custom server module: its exports [config],
    [instance] and [default]. *)
Record server_module := ServerModule {
  sm_config : setting;
  sm_instance : exported;
  sm_default : exported
}.

(** [server.instance || server.default || server] *)
Definition server_handle (m : server_module) : handle :=
  match sm_instance m with
  | EFalsy => default_or_module (sm_default m)
  | e => HExport e
  end.

(** What [bootstrap] reads from outside: the matches of [server.*] in the
    working directory, and [import()] applied to the first of them, or to
    [undefined] when there is none; [None] when the import throws. *)
Record Boot := {
  server_glob : list path;
  import_custom : option path -> option server_module
}.

(** Lines 49 to 63: the [customOptions] of [ajv], defaults first. *)
Definition ajv_defaults : gmap string setting :=
  list_to_map
    [("strictSchema", SValue (Js.VBool false));
     ("allErrors", SValue (Js.VBool true));
     ("allowUnionTypes", SValue (Js.VBool true));
     ("coerceTypes", SValue (Js.VBool true));
     ("useDefaults", SValue (Js.VBool true))].

Definition ajv_plugins : setting :=
  SList [SRef "addFormats"; SRef "addErrors";
         SList [SRef "addKeywords"; SValue (Js.VStr "transform")]].

Definition ajv_options (override : setting) : setting :=
  SObject
    (<["plugins" := ajv_plugins]>
       (<["customOptions" :=
            SObject (setting_props (optional_get (optional_get override "ajv") "customOptions")
                     ∪ ajv_defaults)]> ∅)).

(** Lines 42 to 47: the options written before [...override]. *)
Definition fastify_defaults : gmap string setting :=
  list_to_map
    [("logger", SRef "logger");
     ("disableRequestLogging", SValue (Js.VBool true));
     ("ignoreTrailingSlash", SValue (Js.VBool true));
     ("trustProxy", SValue (Js.VBool true));
     ("pluginTimeout", SValue (Js.VNum 0));
     ("maxParamLength", SValue (Js.VNum 100))].

(** Lines 41 to 65: the object literal handed to [fastify]; a later
    property replaces an earlier one of the same name. *)
Definition fastify_options (override : setting) : gmap string setting :=
  <["genReqId" := SRef "genReqId"]>
    (<["ajv" := ajv_options override]> (setting_props override ∪ fastify_defaults)).

(** What is registered on the instance, in order. *)
Inductive registration :=
| Builtin (name : string) (options : option (gmap string Js.value))
| OnRequestHook
| CustomServer (h : handle)
| NotFoundHandler
| ErrorHandler
| RouteLoader.

(** Lines 67 to 78. *)
Definition builtin_registrations : list registration :=
  [Builtin "fastifyRequestContext" None;
   Builtin "fastifyCors"
     (Some (list_to_map [("origin", Js.VBool true); ("credentials", Js.VStr "include")]));
   Builtin "fastifyCookie" None;
   Builtin "fastifyAccepts" None;
   Builtin "fastifySensible" None;
   Builtin "fastifyEtag" None;
   OnRequestHook].

Record booted := Booted {
  b_options : gmap string setting;
  b_registered : list registration;
  (** whether line 35 logged that the custom server is not an async function *)
  b_rejected_custom : bool
}.

(** [bootstrap].  The test [if (custom)] always passes, an array being
    truthy, so the import runs on [custom[0]] even when the glob matched
    nothing; [if (server)] and [if (handle)] pass as well, a namespace
    object being truthy. *)
Definition bootstrap (b : Boot) : result booted :=
  let custom := server_glob b in
  match import_custom b (head custom) with
  | None => Raise (LoadError (default ["undefined"] (head custom)))
  | Some server =>
      let override :=
        if setting_truthy (sm_config server) then sm_config server else SObject ∅ in
      let handle := server_handle server in
      let customerServer :=
        if bool_decide (to_string_tag handle = Some "AsyncFunction")
        then Some handle else None in
      Ok (Booted (fastify_options override)
                 (builtin_registrations
                  ++ match customerServer with
                     | Some h => [CustomServer h]
                     | None => []
                     end
                  ++ [NotFoundHandler; ErrorHandler; RouteLoader])
                 (bool_decide (customerServer = None)))
  end.

(** * Properties of the embedding *)

Section PathFacts.

Lemma concat_ups n :
  join (repeat "../" (S n))
  = String "."%char (String "."%char (String slash (join (repeat "../" n)))).
Proof. destruct n; reflexivity. Qed.

Lemma segments_ups n : segments (join (repeat "../" n)) = (repeat ".." n ++ [""])%list.
Proof.
  induction n as [|n IH]; [reflexivity|].
  rewrite concat_ups. unfold segments in *. cbn. by rewrite IH.
Qed.

Lemma is_absolute_ups n : is_absolute (join (repeat "../" n)) = false.
Proof. destruct n; [reflexivity|]. by rewrite concat_ups. Qed.

Lemma foldl_enter_ups n p : foldl enter p (repeat ".." n) = ancestor n p.
Proof.
  revert p. induction n as [|n IH]; intros p; [reflexivity|].
  cbn [repeat foldl]. rewrite IH.
  change (enter p "..") with (removelast p).
  unfold ancestor. by rewrite Nat.iter_succ_r.
Qed.

Lemma resolve_ups base n :
  resolve base [join (repeat "../" n)] = ancestor n base.
Proof.
  unfold resolve. cbn [foldl]. rewrite is_absolute_ups, segments_ups, foldl_app.
  by rewrite foldl_enter_ups.
Qed.

Lemma resolve_ups_pattern base n :
  resolve base [join (repeat "../" n); "middleware.*"]
  = (ancestor n base ++ ["middleware.*"])%list.
Proof.
  unfold resolve. cbn [foldl]. rewrite is_absolute_ups, segments_ups, foldl_app.
  by rewrite foldl_enter_ups.
Qed.

Lemma ancestor_length n p : length (ancestor n p) = length p - n.
Proof.
  induction n as [|n IH]; [cbn; lia|].
  unfold ancestor in *. rewrite Nat.iter_succ, removelast_firstn_len, length_take, IH. lia.
Qed.

Lemma ancestor_root n : ancestor n [] = [].
Proof. induction n as [|n IH]; [done|]. unfold ancestor in *. by rewrite Nat.iter_succ, IH. Qed.

Lemma ancestor_dirname n p : ancestor n (dirname p) = ancestor (S n) p.
Proof. unfold ancestor, dirname. by rewrite Nat.iter_succ_r. Qed.

End PathFacts.

(** ** The walk, level by level *)

Section WalkFacts.

Variable w : World.
Variable handler : path.

Lemma state_at_init : state_at w handler 0 = walk_init.
Proof. reflexivity. Qed.

Lemma state_at_succ k :
  state_at w handler (S k)
  = Walk (repeat "../" (S k) ++ ["../"])
         (middlewares (state_at w handler k) ++ contribution w handler k)
         (lookups (state_at w handler k) ++ [level_pattern handler k]).
Proof.
  unfold state_at. cbn [middlewares lookups].
  rewrite seq_S, flat_map_app, map_app. cbn [flat_map map].
  rewrite app_nil_r, <- repeat_cons. reflexivity.
Qed.

Lemma walk_step_at k :
  walk_step w handler (state_at w handler k)
  = match level_ending w handler k with
    | Goes => Continue (state_at w handler (S k))
    | Stops => Break (Walk (up (state_at w handler k)) (middlewares (state_at w handler (S k)))
                           (lookups (state_at w handler (S k))))
    | Fails e => Abort e (Walk (up (state_at w handler k)) (middlewares (state_at w handler k))
                               (lookups (state_at w handler (S k))))
    end.
Proof.
  rewrite state_at_succ. unfold state_at. cbn [middlewares lookups].
  unfold walk_step, level_ending, contribution, level_pattern, level_searched,
    level_tested.
  cbn [up]. rewrite resolve_ups, resolve_ups_pattern.
  destruct (glob_sync w _) as [|middleware rest].
  - by rewrite app_nil_r.
  - destruct (visit w middleware) as [pushed|e]; [|done].
    by destruct (String.eqb _ boundary).
Qed.

Lemma walk_loop_at fuel k :
  walk_loop w handler (S fuel) (state_at w handler k)
  = match end_at w handler k with
    | Some e => Some e
    | None => walk_loop w handler fuel (state_at w handler (S k))
    end.
Proof.
  cbn [walk_loop]. rewrite walk_step_at. unfold end_at.
  by destruct (level_ending w handler k).
Qed.

(** A walk that ends has gone through some levels [0 .. n - 1] and ended
    in level [n]. *)
Lemma walk_loop_ends (fuel k : nat) e :
  walk_loop w handler fuel (state_at w handler k) = Some e →
  ∃ n : nat, k ≤ n < k + fuel
       ∧ (∀ i : nat, k ≤ i < n → level_ending w handler i = Goes)
       ∧ end_at w handler n = Some e.
Proof.
  revert k. induction fuel as [|fuel IH]; intros k H; [done|].
  rewrite walk_loop_at in H.
  destruct (end_at w handler k) as [e'|] eqn:Hk.
  - exists k. split; [lia|]. split; [intros; lia|]. congruence.
  - destruct (IH _ H) as (n & Hn & Hgo & Hend).
    exists n. split; [lia|]. split; [|done].
    intros i Hi. destruct (decide (i = k)) as [->|]; [|apply Hgo; lia].
    unfold end_at in Hk. by destruct (level_ending w handler k).
Qed.

(** Conversely, enough fuel reaches the first level that does not go on. *)
Lemma walk_loop_reaches (fuel k n : nat) :
  k ≤ n < k + fuel →
  (∀ i : nat, k ≤ i < n → level_ending w handler i = Goes) →
  level_ending w handler n ≠ Goes →
  walk_loop w handler fuel (state_at w handler k) = end_at w handler n ∧ is_Some (end_at w handler n).
Proof.
  revert k. induction fuel as [|fuel IH]; intros k Hn Hgo Hstop; [lia|].
  rewrite walk_loop_at.
  destruct (decide (k = n)) as [->|Hne].
  - unfold end_at in *. destruct (level_ending w handler n); [done| |]; split; eauto.
  - assert (end_at w handler k = None) as ->.
    { unfold end_at. rewrite Hgo; [done|lia]. }
    apply IH; [lia| |done]. intros; apply Hgo; lia.
Qed.

(** A walk all of whose levels go on never ends. *)
Lemma walk_loop_diverges (fuel k : nat) :
  (∀ i : nat, k ≤ i → level_ending w handler i = Goes) →
  walk_loop w handler fuel (state_at w handler k) = None.
Proof.
  revert k. induction fuel as [|fuel IH]; intros k Hgo; [done|].
  rewrite walk_loop_at. unfold end_at. rewrite Hgo; [|lia].
  apply IH. intros; apply Hgo; lia.
Qed.

Lemma walk_ends (fuel : nat) e :
  walk w handler fuel = Some e →
  ∃ n : nat, n < fuel
       ∧ (∀ i : nat, i < n → level_ending w handler i = Goes)
       ∧ end_at w handler n = Some e.
Proof.
  intros H. destruct (walk_loop_ends fuel 0 e H) as (n & Hn & Hgo & Hend).
  exists n. split; [lia|]. split; [|done]. intros; apply Hgo; lia.
Qed.

End WalkFacts.

(** ** Facts about the free identifier [fs] and about [visit] *)

Lemma fs_bound_global w : identifier_bound w "fs" = global_fs w.
Proof. reflexivity. Qed.

Lemma fs_not_a_module_binding : "fs" ∉ module_bindings.
Proof. apply (proj1 (bool_decide_eq_false _)). by vm_compute. Qed.

(** ** The schema merge *)

Section MergeFacts.

Variable w : World.
Variable handler : path.



(** With [fs] bound, a schema file that does not parse leaves the
    options as they are. *)
Lemma merge_schema_malformed o :
  global_fs w = true →
  parse_file w (schema_file handler) = None →
  merge_schema w handler o = Ok o.
Proof.
  intros Hfs Hparse. unfold merge_schema, try_merge.
  rewrite fs_bound_global, Hfs, Hparse.
  destruct (exists_sync w _); by destruct o.
Qed.

Lemma merge_schema_absent o :
  global_fs w = true →
  exists_sync w (schema_file handler) = false →
  merge_schema w handler o = Ok o.
Proof.
  intros Hfs Hex. unfold merge_schema. by rewrite fs_bound_global, Hfs, Hex.
Qed.

Lemma merge_schema_unbound o :
  global_fs w = false →
  merge_schema w handler o = Raise (ReferenceError "fs").
Proof. intros Hfs. unfold merge_schema. by rewrite fs_bound_global, Hfs. Qed.

Lemma intercept_unbound c s :
  global_fs w = false →
  intercept w handler c s = Raise (ReferenceError "fs").
Proof.
  intros Hfs. unfold intercept. destruct (split_args _ _) as [o route].
  by rewrite merge_schema_unbound.
Qed.

(** With [fs] bound and no contribution from a schema file, a call whose
    options are not [null] is forwarded with the options it came with. *)
Lemma intercept_untouched c s props route :
  global_fs w = true →
  exists_sync w (schema_file handler) = false
    ∨ parse_file w (schema_file handler) = None →
  split_args (c_arg1 c) (c_arg2 c) = (OObject props, route) →
  intercept w handler c s
  = Ok (Scope (let v := default Js.VUndefined (props !! "schema") in
               if Js.truthy v then <[schema_key (c_method c) (c_url c) := v]> (schema s)
               else schema s)
              (routes s ++ [Forwarded (c_method c) (c_url c) (OObject props) route])).
Proof.
  intros Hfs Hfile Hargs. unfold intercept. rewrite Hargs.
  destruct Hfile as [Hex|Hparse].
  - by rewrite merge_schema_absent.
  - by rewrite merge_schema_malformed.
Qed.

End MergeFacts.

(** ** Recognition of the handler export *)

Section ComposeFacts.

Variable w : World.
Variable handler : path.

Lemma compose_registers ms : l_registered (compose w handler ms) = rev ms.
Proof.
  unfold compose. destruct (import_module w handler) as [e|]; [|done].
  destruct (includes _); [|done]. by destruct (invoke _ _ _ _).
Qed.

(** An async function is called with the wrapped scope. *)
Lemma compose_async ms body :
  import_module w handler = Some (ECallable (Func AsyncFunction None body)) →
  compose w handler ms
  = Loaded (rev ms) true (run_body w handler body empty_scope).2
           (run_body w handler body empty_scope).1.
Proof.
  intros H. unfold compose. rewrite H. cbn.
  by destruct (run_body w handler body empty_scope).
Qed.

(** A plain function carries no [Symbol.toStringTag]: it is not called. *)
Lemma compose_plain ms body :
  import_module w handler = Some (ECallable (Func PlainFunction None body)) →
  compose w handler ms = Loaded (rev ms) false empty_scope (Ok tt).
Proof. intros H. unfold compose. by rewrite H. Qed.

(** An export that is not a function and has no tag of its own, or no
    truthy export at all, is skipped without an error. *)
Lemma compose_not_callable ms e :
  import_module w handler = Some e →
  e = EFalsy ∨ e = EOther None →
  compose w handler ms = Loaded (rev ms) false empty_scope (Ok tt).
Proof. intros H [->| ->]; unfold compose; by rewrite H. Qed.

End ComposeFacts.

(** ** Where the walk looks, and where it stops *)

Section LevelFacts.

Variable w : World.
Variable handler : path.

Lemma dirname_pattern (d : path) : dirname (d ++ ["middleware.*"]) = d.
Proof. unfold dirname. by rewrite removelast_last. Qed.

Lemma level_searched_succ (k : nat) :
  level_searched handler (S k) = dirname (level_searched handler k).
Proof. unfold level_searched, ancestor, dirname. by rewrite Nat.iter_succ. Qed.

Lemma level_tested_ancestor (k : nat) :
  level_tested handler k = ancestor k (dirname handler).
Proof. unfold level_tested. by rewrite ancestor_dirname. Qed.

Lemma ancestor_short (n : nat) (p : path) : length p ≤ n → ancestor n p = [].
Proof.
  intros H. apply length_zero_iff_nil. rewrite ancestor_length. lia.
Qed.

(** A level whose tested directory is the boundary does not go on. *)
Lemma boundary_level_stops (k : nat) :
  basename (ancestor k (dirname handler)) = boundary →
  level_ending w handler k ≠ Goes.
Proof.
  intros Hb. unfold level_ending. rewrite level_tested_ancestor, Hb.
  destruct (glob_sync w _) as [|m rest]; [done|].
  by destruct (visit w m).
Qed.

Lemma empty_level_stops (k : nat) :
  glob_sync w (level_pattern handler k) = [] → level_ending w handler k = Stops.
Proof. intros H. unfold level_ending. by rewrite H. Qed.

Lemma contribution_short (k : nat) : length (contribution w handler k) ≤ 1.
Proof.
  unfold contribution, visit.
  destruct (glob_sync w _) as [|m rest]; [cbn; lia|].
  destruct (identifier_bound w "fs"); [|cbn; lia].
  destruct (exists_sync w m); [|cbn; lia].
  destruct (import_module w m); [|cbn; lia].
  destruct (bool_decide _); cbn; lia.
Qed.

(** The lookups of a walk that ended in level [n]. *)
Lemma end_at_lookups (n : nat) e :
  end_at w handler n = Some e →
  w_lookups e = map (level_pattern handler) (seq 0 (S n)).
Proof.
  unfold end_at. destruct (level_ending w handler n); [done| |]; by intros [= <-].
Qed.

Lemma end_at_result (n : nat) e ms :
  end_at w handler n = Some e → w_result e = Ok ms →
  ms = flat_map (contribution w handler) (seq 0 (S n)).
Proof.
  unfold end_at. destruct (level_ending w handler n); [done| |];
    intros [= <-]; cbn; congruence.
Qed.

(** Fuel that covers a level which does not go on is enough. *)
Lemma walk_loop_total (fuel k n : nat) :
  k ≤ n < k + fuel →
  level_ending w handler n ≠ Goes →
  is_Some (walk_loop w handler fuel (state_at w handler k)).
Proof.
  revert k. induction fuel as [|fuel IH]; intros k Hn Hstop; [lia|].
  rewrite walk_loop_at. destruct (end_at w handler k) as [e|] eqn:Hk; [eauto|].
  apply IH; [|done].
  destruct (decide (k = n)) as [->|]; [|lia].
  unfold end_at in Hk. by destruct (level_ending w handler n).
Qed.

(** The walk ends within [k + 1] iterations when the [k]-th directory
    above the handler's own is the boundary. *)
Lemma walk_ends_at_boundary (k : nat) :
  basename (ancestor k (dirname handler)) = boundary →
  is_Some (walk w handler (S k)).
Proof.
  intros Hb. unfold walk. rewrite <- (state_at_init w handler).
  apply (walk_loop_total (S k) 0 k); [lia|]. by apply boundary_level_stops.
Qed.

(** The walk ends before it would search the root directory twice when
    no middleware file lies there. *)
Lemma walk_ends_below_root :
  glob_sync w ["middleware.*"] = [] →
  is_Some (walk w handler (S (length (dirname handler)))).
Proof.
  intros Hroot. unfold walk. rewrite <- (state_at_init w handler).
  apply (walk_loop_total _ 0 (length (dirname handler))); [lia|].
  rewrite empty_level_stops; [done|].
  unfold level_pattern, level_searched. rewrite ancestor_short; [done|lia].
Qed.

(** Without [fs] the walk ends in its first iteration. *)
Lemma walk_ends_unbound :
  global_fs w = false → is_Some (walk w handler 1).
Proof.
  intros Hfs. unfold walk. rewrite <- (state_at_init w handler).
  apply (walk_loop_total 1 0 0); [lia|].
  unfold level_ending, visit. rewrite fs_bound_global, Hfs.
  by destruct (glob_sync w _).
Qed.

(** The lookups of the first [fuel] iterations are those of the levels
    [0 .. n - 1] for some [n], all of which but the last go on. *)
Lemma walk_trace_at (fuel k : nat) :
  ∃ n : nat,
    k ≤ n ≤ k + fuel
    ∧ (0 < fuel → k < n)
    ∧ walk_trace w handler fuel (state_at w handler k)
      = map (level_pattern handler) (seq 0 n)
    ∧ (∀ i : nat, k ≤ i → S i < n → level_ending w handler i = Goes).
Proof.
  revert k. induction fuel as [|fuel IH]; intros k.
  - exists k. split; [lia|]. split; [lia|]. split; [done|]. intros; lia.
  - cbn [walk_trace]. rewrite walk_step_at.
    destruct (level_ending w handler k) eqn:Hk.
    + destruct (IH (S k)) as (n & Hn & _ & Htrace & Hgo).
      exists n. split; [lia|]. split; [lia|]. split; [done|].
      intros i Hi Hlt. destruct (decide (i = k)) as [->|]; [done|].
      apply Hgo; lia.
    + exists (S k). split; [lia|]. split; [lia|]. split; [done|]. intros; lia.
    + exists (S k). split; [lia|]. split; [lia|]. split; [done|]. intros; lia.
Qed.

Lemma walk_trace_loop (fuel : nat) (st : walk_state) e :
  walk_loop w handler fuel st = Some e →
  w_lookups e = walk_trace w handler fuel st.
Proof.
  revert st. induction fuel as [|fuel IH]; intros st; [done|].
  cbn [walk_loop walk_trace].
  destruct (walk_step w handler st) as [st'|st'|err st']; [apply IH| |];
    by intros [= <-].
Qed.

End LevelFacts.


(** With [fs] bound, a middleware file that exists is pushed exactly when
    the tag of its export is ['AsyncFunction']. *)
Lemma visit_pushes_async_only (w : World) (middleware : path) (pushed : list plugin) :
  visit w middleware = Ok pushed →
  ∀ pl, pl ∈ pushed →
    source pl = middleware ∧ to_string_tag (wrapped pl) = Some "AsyncFunction".
Proof.
  unfold visit. destruct (identifier_bound w "fs"); [|done].
  destruct (exists_sync w middleware); [|by intros [= <-] pl ?%elem_of_nil].
  destruct (import_module w middleware) as [e|]; [|done].
  destruct (bool_decide _) eqn:Htag; intros [= <-] pl Hin.
  - apply list_elem_of_singleton in Hin as ->. cbn.
    by apply bool_decide_eq_true in Htag.
  - by apply elem_of_nil in Hin.
Qed.

Lemma visit_plain_function (w : World) (middleware : path) (body : list call) :
  global_fs w = true →
  import_module w middleware = Some (ECallable (Func PlainFunction None body)) →
  visit w middleware = Ok [].
Proof.
  intros Hfs Himport. unfold visit. rewrite fs_bound_global, Hfs, Himport.
  by destruct (exists_sync w middleware).
Qed.

Lemma methods_all (m : http_method) : m ∈ methods.
Proof. unfold methods. destruct m; set_solver. Qed.

Lemma rev_flat_map_short {A B} (f : A → list B) (l : list A) :
  (∀ x, length (f x) ≤ 1) → rev (flat_map f l) = flat_map f (rev l).
Proof.
  intros Hshort. induction l as [|x l IH]; [done|].
  cbn [flat_map rev]. rewrite rev_app_distr, flat_map_app, IH. cbn [flat_map].
  rewrite app_nil_r. f_equal.
  specialize (Hshort x). destruct (f x) as [|y [|z r]]; [done|done|cbn in Hshort; lia].
Qed.

(** * The specification, sentence by sentence *)

(** C1 (defect in the code): for the inline schema [{a: 1}] and the file
    contents [{a: 2, b: 3}] the specification asks for [{a: 1, b: 3}].  With [fs]
    bound the route is recorded and forwarded with [{a: 2, b: 3}]: line
    165 spreads the file over the value it calls [override].  With [fs]
    unbound the registration ends in a ReferenceError. *)
Theorem C1_file_keys_hide_inline_keys :
  l_scope <$> load_handler (Fixture.world true Scenario.merge_disk) Scenario.users_handler 1
  = Some (Scope {["get/x" := Scenario.file_a2_b3]}
                [Forwarded GET "/x" (OObject {["schema" := Scenario.file_a2_b3]}) (ArgFunction 0)])
  ∧ Scenario.file_a2_b3 ≠ Scenario.handler_wins
  ∧ l_status <$> load_handler (Fixture.world false Scenario.merge_disk) Scenario.users_handler 1
    = Some (Raise (ReferenceError "fs")).
Proof.
  split; [by vm_compute|]. split; [|by vm_compute].
  intros H.
  apply (f_equal (fun v => match v with Js.VObj m => m !! "a" | _ => None end)) in H.
  vm_compute in H. discriminate.
Qed.

(** C2 (refuted as stated): the first lookup of the walk for
    [/srv/api/users/index.js] is [/srv/api/middleware.*], not a pattern in
    [/srv/api/users], the directory that contains the handler file. *)
Lemma C2_first_lookup_not_in_handler_directory :
  ¬ (∀ (w : World) (handler : path) (fuel : nat) (e : walk_end),
        walk w handler fuel = Some e →
        head (w_lookups e) = Some (dirname handler ++ ["middleware.*"])).
Proof.
  intros H.
  specialize (H (Fixture.world true Scenario.async_disk) Scenario.users_handler 1
                (WalkEnd (Ok []) [["srv"; "api"; "middleware.*"]])).
  assert (Some ["srv"; "api"; "middleware.*"]
          = Some ["srv"; "api"; "users"; "middleware.*"]) as Heq.
  { apply H. by vm_compute. }
  discriminate Heq.
Qed.

(** C2 (amended): in every walk, however long it runs, the first lookup is
    made in the parent of the directory that contains the handler file,
    and each later lookup is made in the parent of the directory of the
    one before it (the parent of the root being the root); a walk that
    ends has made exactly these lookups. *)
Theorem C2_lookups_start_one_level_up (w : World) (handler : path) (fuel : nat) :
  head (walk_trace w handler (S fuel) walk_init)
  = Some (dirname (dirname handler) ++ ["middleware.*"])
  ∧ (∀ (i : nat) (p q : path),
        walk_trace w handler (S fuel) walk_init !! i = Some p →
        walk_trace w handler (S fuel) walk_init !! S i = Some q →
        q = dirname (dirname p) ++ ["middleware.*"])
  ∧ (∀ e : walk_end,
        walk w handler (S fuel) = Some e →
        w_lookups e = walk_trace w handler (S fuel) walk_init).
Proof.
  destruct (walk_trace_at w handler (S fuel) 0) as (n & _ & Hpos & Htrace & _).
  rewrite state_at_init in Htrace. rewrite Htrace.
  split; [|split].
  - destruct n as [|n]; [lia|done].
  - intros i p q Hp Hq.
    apply list_lookup_fmap_Some in Hp as (j & -> & Hj).
    apply list_lookup_fmap_Some in Hq as (j' & -> & Hj').
    apply lookup_seq in Hj as [-> _]. apply lookup_seq in Hj' as [-> _].
    cbn [Nat.add]. unfold level_pattern at 1 2.
    by rewrite dirname_pattern, level_searched_succ.
  - intros e Hwalk. rewrite <- Htrace. by apply walk_trace_loop.
Qed.

(** C3 (refuted as stated): for a handler below [/srv/api/handlers], with
    [fs] bound and middleware files in [/srv/api/handlers] and in
    [/srv/api], the walk collects the file of [/srv/api], a directory
    strictly above the boundary [/srv/api/handlers]. *)
Lemma C3_middleware_above_boundary_is_collected :
  ¬ (∀ (w : World) (handler : path) (fuel : nat) (e : walk_end)
        (ms : list plugin) (k : nat) (pl : plugin),
        walk w handler fuel = Some e →
        w_result e = Ok ms →
        basename (ancestor k (dirname handler)) = boundary →
        pl ∈ ms →
        ¬ strictly_above (dirname (source pl)) (ancestor k (dirname handler))).
Proof.
  intros H.
  pose (inner := Plugin Scenario.inner_middleware (HExport (Fixture.async []))).
  pose (outer := Plugin Scenario.outer_middleware (HExport (Fixture.async []))).
  apply (H (Fixture.world true Scenario.boundary_disk) Scenario.boundary_handler 2
           (WalkEnd (Ok [inner; outer])
                    [["srv"; "api"; "handlers"; "middleware.*"]; ["srv"; "api"; "middleware.*"]])
           [inner; outer] 1 outer).
  - by vm_compute.
  - reflexivity.
  - reflexivity.
  - apply list_elem_of_In. right. by left.
  - exists ["handlers"]. split; [done|reflexivity].
Qed.

(** C3 (amended): when the [k]-th directory above the handler's own (the
    handler's own for [k = 0]) is named [handlers], the walk ends within
    [k + 1] iterations, it never makes more than [k + 1] lookups, the last
    of them in the parent of that directory, and everything it collects
    comes from these levels; and no walk makes a lookup after one that
    finds no middleware file. *)
Theorem C3_walk_stops_after_boundary_level (w : World) (handler : path) :
  (∀ k : nat,
      basename (ancestor k (dirname handler)) = boundary →
      is_Some (walk w handler (S k))
      ∧ (∀ fuel : nat, length (walk_trace w handler fuel walk_init) ≤ S k)
      ∧ (∀ (fuel : nat) e ms pl,
            walk w handler fuel = Some e → w_result e = Ok ms → pl ∈ ms →
            ∃ i : nat, i ≤ k ∧ pl ∈ contribution w handler i))
  ∧ (∀ (fuel i : nat) (p : path),
        walk_trace w handler fuel walk_init !! i = Some p →
        glob_sync w p = [] →
        length (walk_trace w handler fuel walk_init) = S i).
Proof.
  split.
  - intros k Hb. split; [by apply walk_ends_at_boundary|]. split.
    + intros fuel.
      destruct (walk_trace_at w handler fuel 0) as (n & _ & _ & Htrace & Hgo).
      rewrite state_at_init in Htrace. rewrite Htrace, length_map, length_seq.
      destruct (decide (n ≤ S k)) as [|Hlt]; [done|].
      exfalso. apply (boundary_level_stops w handler k Hb). apply Hgo; lia.
    + intros fuel e ms pl Hwalk Hres Hin.
      destruct (walk_ends _ _ _ _ Hwalk) as (n & _ & Hgo & Hend).
      assert (n ≤ k) as Hnk.
      { destruct (decide (n ≤ k)) as [|Hlt]; [done|].
        exfalso. apply (boundary_level_stops w handler k Hb). apply Hgo. lia. }
      rewrite (end_at_result _ _ _ _ _ Hend Hres) in Hin.
      apply list_elem_of_In, in_flat_map in Hin as (i & Hi & Hpl).
      apply in_seq in Hi. exists i. split; [lia|]. by apply list_elem_of_In.
  - intros fuel i p Hp Hglob.
    destruct (walk_trace_at w handler fuel 0) as (n & _ & _ & Htrace & Hgo).
    rewrite state_at_init in Htrace. rewrite Htrace in Hp |- *.
    rewrite length_map, length_seq.
    apply list_lookup_fmap_Some in Hp as (j & -> & Hj).
    apply lookup_seq in Hj as [-> Hi]. cbn [Nat.add] in *.
    destruct (decide (S i = n)) as [|Hne]; [done|].
    pose proof (empty_level_stops w handler i Hglob) as Hstop.
    rewrite Hgo in Hstop; [done|lia|lia].
Qed.

(** C4 (defect in the code): a handler module whose export is a plain
    synchronous function is not called and registers no route, while the
    same body exported as an async function is called and its route is
    forwarded. *)
Theorem C4_plain_function_handler_not_invoked :
  load_handler (Fixture.world true Scenario.plain_disk) Scenario.users_handler 1
  = Some (Loaded [] false empty_scope (Ok tt))
  ∧ load_handler (Fixture.world true Scenario.async_disk) Scenario.users_handler 1
    = Some (Loaded [] true
              (Scope ∅ [Forwarded GET "/x" (OObject ∅) (ArgFunction 0)]) (Ok tt)).
Proof. split; by vm_compute. Qed.

(** C5: [fs] is not among the identifiers the module binds; when the
    global object does not supply it either, every iteration of the walk
    whose glob finds a middleware file ends in a ReferenceError, a handler
    with a middleware file at the first level searched is not registered,
    and every intercepted registration call ends in a ReferenceError, so
    that a handler body stops at its first call. *)
Theorem C5_unbound_fs_is_a_reference_error (w : World) :
  global_fs w = false →
  ("fs" ∉ module_bindings)
  ∧ (∀ handler st middleware rest,
        glob_sync w (resolve (dirname handler) [join (up st); "middleware.*"])
        = middleware :: rest →
        ∃ st', walk_step w handler st = Abort (ReferenceError "fs") st')
  ∧ (∀ handler fuel middleware rest,
        glob_sync w (level_pattern handler 0) = middleware :: rest →
        load_handler w handler (S fuel)
        = Some (Loaded [] false empty_scope (Raise (ReferenceError "fs"))))
  ∧ (∀ handler c s, intercept w handler c s = Raise (ReferenceError "fs"))
  ∧ (∀ handler c rest s,
        run_body w handler (c :: rest) s = (Raise (ReferenceError "fs"), s)).
Proof.
  intros Hfs. split; [apply fs_not_a_module_binding|].
  assert (∀ m, visit w m = Raise (ReferenceError "fs")) as Hvisit.
  { intros m. unfold visit. by rewrite fs_bound_global, Hfs. }
  split; [|split; [|split]].
  - intros handler st middleware rest Hglob. unfold walk_step.
    rewrite Hglob, Hvisit. eauto.
  - intros handler fuel middleware rest Hglob.
    unfold load_handler, walk. rewrite <- (state_at_init w handler), walk_loop_at.
    unfold end_at, level_ending. by rewrite Hglob, Hvisit.
  - intros. by apply intercept_unbound.
  - intros. cbn [run_body]. by rewrite intercept_unbound.
Qed.

Lemma C5_unbound_fs_witness :
  intercept (Fixture.world false Scenario.async_disk) Scenario.users_handler
            Scenario.get_x_bare empty_scope
  = Raise (ReferenceError "fs").
Proof.
  apply (C5_unbound_fs_is_a_reference_error (Fixture.world false Scenario.async_disk)).
  reflexivity.
Defined.

(** C6 (defect in the code): next to a [schema.json] that is not JSON, the
    registration call of the handler throws when [fs] is unbound: line 162
    reads [fs] outside the [try] block.  With [fs] bound the same call is
    forwarded with the inline schema alone. *)
Theorem C6_malformed_schema_still_throws :
  load_handler (Fixture.world false Scenario.malformed_disk) Scenario.users_handler 1
  = Some (Loaded [] true empty_scope (Raise (ReferenceError "fs")))
  ∧ load_handler (Fixture.world true Scenario.malformed_disk) Scenario.users_handler 1
    = Some (Loaded [] true
              (Scope {["get/x" := Scenario.inline_a1]}
                     [Forwarded GET "/x" (OObject {["schema" := Scenario.inline_a1]})
                                (ArgFunction 0)])
              (Ok tt)).
Proof. split; by vm_compute. Qed.

(** C7 (defect in the code): with a middleware file that exports a plain
    function, the handler is not registered when [fs] is unbound: line 126
    throws before the export is looked at.  With [fs] bound the middleware
    is left out of the chain and the handler registers. *)
Theorem C7_sync_middleware_aborts_handler :
  load_handler (Fixture.world false Scenario.sync_middleware_disk) Scenario.users_handler 2
  = Some (Loaded [] false empty_scope (Raise (ReferenceError "fs")))
  ∧ load_handler (Fixture.world true Scenario.sync_middleware_disk) Scenario.users_handler 2
    = Some (Loaded [] true
              (Scope ∅ [Forwarded GET "/x" (OObject ∅) (ArgFunction 0)]) (Ok tt)).
Proof. split; by vm_compute. Qed.

(** C8: when the walk ends without an exception, the plugins are handed to
    [wrapper.register] in the reverse of the order in which the walk
    collected them; the walk collects level by level from the nearest
    level [0] upward, so the registration runs from the farthest level
    down to level [0]. *)
Theorem C8_registration_order_is_reversed_walk_order (w : World) (handler : path)
    (fuel : nat) (r : loaded) (e : walk_end) (ms : list plugin) :
  load_handler w handler fuel = Some r →
  walk w handler fuel = Some e →
  w_result e = Ok ms →
  l_registered r = rev ms
  ∧ ∃ n : nat,
      ms = flat_map (contribution w handler) (seq 0 n)
      ∧ l_registered r = flat_map (contribution w handler) (rev (seq 0 n)).
Proof.
  intros Hload Hwalk Hres. unfold load_handler in Hload. rewrite Hwalk in Hload.
  destruct e as [res lks]. cbn in Hres. subst res. injection Hload as <-.
  rewrite compose_registers. split; [done|].
  destruct (walk_ends _ _ _ _ Hwalk) as (n & _ & _ & Hend).
  exists (S n). rewrite (end_at_result _ _ _ _ ms Hend eq_refl) at 1 2.
  split; [done|]. apply rev_flat_map_short, contribution_short.
Qed.

Lemma C8_registration_order_witness :
  [Plugin Scenario.outer_middleware (HExport (Fixture.async []));
   Plugin Scenario.inner_middleware (HExport (Fixture.async []))]
  = rev [Plugin Scenario.inner_middleware (HExport (Fixture.async []));
         Plugin Scenario.outer_middleware (HExport (Fixture.async []))].
Proof.
  apply (C8_registration_order_is_reversed_walk_order
           (Fixture.world true Scenario.boundary_disk) Scenario.boundary_handler 2
           (Loaded [Plugin Scenario.outer_middleware (HExport (Fixture.async []));
                    Plugin Scenario.inner_middleware (HExport (Fixture.async []))]
                   true empty_scope (Ok tt))
           (WalkEnd (Ok [Plugin Scenario.inner_middleware (HExport (Fixture.async []));
                         Plugin Scenario.outer_middleware (HExport (Fixture.async []))])
                    [["srv"; "api"; "handlers"; "middleware.*"]; ["srv"; "api"; "middleware.*"]])).
  - vm_compute. reflexivity.
  - vm_compute. reflexivity.
  - reflexivity.
Defined.

(** C9 (refuted as stated): a handler that declares no schema, next to a
    [schema.json] that parses, gets the contents of the file recorded in
    the table and attached to the forwarded options. *)
Lemma C9_schema_file_alone_attaches_a_schema :
  ¬ (∀ (w : World) (handler : path) (c : call) (s s' : scope),
        inline_schema c = Js.VUndefined →
        intercept w handler c s = Ok s' →
        schema s' = schema s
        ∧ ∃ o route,
            routes s' = routes s ++ [Forwarded (c_method c) (c_url c) o route]
            ∧ get_schema o = Ok Js.VUndefined).
Proof.
  intros H.
  destruct (H (Fixture.world true Scenario.bare_disk) Scenario.users_handler
              Scenario.get_x_bare empty_scope
              (Scope {["get/x" := Scenario.file_a2_b3]}
                     [Forwarded GET "/x" (OObject {["schema" := Scenario.file_a2_b3]})
                                (ArgFunction 0)]))
    as [Htable _].
  - reflexivity.
  - by vm_compute.
  - apply (f_equal (fun m : gmap string Js.value => m !! "get/x")) in Htable.
    vm_compute in Htable. discriminate Htable.
Qed.

(** C9 (amended): when the handler declares no inline schema and the
    schema file is absent or does not parse, a registration call that is
    forwarded leaves the table as it was and carries no schema. *)
Theorem C9_no_schema_from_either_source (w : World) (handler : path) (c : call)
    (s s' : scope) :
  inline_schema c = Js.VUndefined →
  exists_sync w (schema_file handler) = false
    ∨ parse_file w (schema_file handler) = None →
  intercept w handler c s = Ok s' →
  schema s' = schema s
  ∧ ∃ o route,
      routes s' = routes s ++ [Forwarded (c_method c) (c_url c) o route]
      ∧ get_schema o = Ok Js.VUndefined.
Proof.
  intros Hinline Hfile Hcall.
  destruct (global_fs w) eqn:Hfs; [|by rewrite intercept_unbound in Hcall].
  unfold inline_schema in Hinline.
  destruct (split_args (c_arg1 c) (c_arg2 c)) as [o route] eqn:Hargs.
  destruct o as [|props]; cbn in Hinline.
  - unfold intercept in Hcall. rewrite Hargs in Hcall.
    assert (merge_schema w handler ONull = Ok ONull) as Hm.
    { destruct Hfile; [by apply merge_schema_absent|by apply merge_schema_malformed]. }
    by rewrite Hm in Hcall.
  - rewrite (intercept_untouched w handler c s props route Hfs Hfile Hargs) in Hcall.
    cbn zeta in Hcall. rewrite Hinline in Hcall. cbn in Hcall.
    injection Hcall as <-. split; [done|].
    exists (OObject props), route. split; [done|]. cbn. by rewrite Hinline.
Qed.

Lemma C9_no_schema_witness :
  schema (Scope ∅ [Forwarded GET "/x" (OObject ∅) (ArgFunction 0)]) = schema empty_scope.
Proof.
  apply (C9_no_schema_from_either_source
           (Fixture.world true Scenario.async_disk) Scenario.users_handler
           Scenario.get_x_bare empty_scope
           (Scope ∅ [Forwarded GET "/x" (OObject ∅) (ArgFunction 0)])).
  - reflexivity.
  - left. vm_compute. reflexivity.
  - vm_compute. reflexivity.
Defined.

(** C10 (defect in the code): for a project that lives in the root
    directory, with [fs] bound and a middleware file in the root, no
    number of iterations ends the walk: every iteration finds the file of
    the root again, and the name it tests is never [handlers]. *)
Theorem C10_walk_at_root_never_ends :
  ∀ fuel : nat,
    walk (Fixture.world true Scenario.root_disk) Scenario.root_handler fuel = None
    ∧ load_handler (Fixture.world true Scenario.root_disk) Scenario.root_handler fuel = None.
Proof.
  intros fuel.
  assert (walk (Fixture.world true Scenario.root_disk) Scenario.root_handler fuel = None)
    as Hwalk.
  { unfold walk.
    rewrite <- (state_at_init (Fixture.world true Scenario.root_disk) Scenario.root_handler).
    apply walk_loop_diverges. intros i _. unfold level_ending.
    assert (level_pattern Scenario.root_handler i = ["middleware.*"]) as ->.
    { unfold level_pattern, level_searched. rewrite ancestor_short; [done|cbn; lia]. }
    assert (basename (level_tested Scenario.root_handler i) ≠ boundary) as Hname.
    { destruct i as [|i]; [by vm_compute|].
      unfold level_tested. rewrite ancestor_short; [by vm_compute|cbn; lia]. }
    apply String.eqb_neq in Hname. rewrite Hname. by vm_compute. }
  split; [done|]. unfold load_handler. by rewrite Hwalk.
Qed.

(** * Further properties of the loader *)

(** ** The keys of the schema table *)

(** X1: two registrations share a key of the schema table only when they
    have the same method and the same url: no method name is a prefix of
    another. *)
Theorem X1_schema_key_injective (m1 m2 : http_method) (url1 url2 : string) :
  schema_key m1 url1 = schema_key m2 url2 → m1 = m2 ∧ url1 = url2.
Proof.
  unfold schema_key.
  destruct m1, m2; cbn; intros H;
    first [ discriminate H
          | split; [reflexivity|];
            injection H as H; exact H ].
Qed.

Lemma X1_schema_key_witness : GET = GET ∧ "/x" = "/x".
Proof. apply (X1_schema_key_injective GET GET "/x" "/x"). reflexivity. Defined.

(** ** The interception of one call *)





(** X4: a registration call whose second argument is neither an object nor
    a function (it is [undefined], a string, a number or a boolean) is
    never forwarded with its third argument: whatever handler was passed
    there, the original function receives [undefined] in its place, and
    options that hold at most a schema. *)
Theorem X4_third_argument_dropped (w : World) (handler : path) (c : call)
    (s s' : scope) :
  typeof (c_arg1 c) ≠ "object" →
  typeof (c_arg1 c) ≠ "function" →
  intercept w handler c s = Ok s' →
  ∃ o : gmap string Js.value,
    routes s' = routes s ++ [Forwarded (c_method c) (c_url c) (OObject o) ArgUndefined]
    ∧ ∀ k : string, k ≠ "schema" → o !! k = None.
Proof.
  intros Hobj Hfun Hcall. unfold intercept in Hcall.
  assert (split_args (c_arg1 c) (c_arg2 c) = (OObject ∅, ArgUndefined)) as Hargs.
  { unfold split_args. destruct (c_arg1 c); cbn in *; congruence. }
  rewrite Hargs in Hcall. unfold merge_schema, try_merge in Hcall.
  destruct (identifier_bound w "fs"); [|done].
  destruct (exists_sync w (schema_file handler)).
  - destruct (parse_file w (schema_file handler)) as [file|].
    + cbn in Hcall. rewrite lookup_insert_eq in Hcall. cbn in Hcall.
      injection Hcall as <-. eexists. split; [done|].
      intros k Hk. by rewrite lookup_insert_ne.
    + cbn in Hcall. injection Hcall as <-. by exists ∅.
  - cbn in Hcall. injection Hcall as <-. by exists ∅.
Qed.

Lemma X4_third_argument_witness :
  ∃ o : gmap string Js.value,
    routes (Scope ∅ [Forwarded GET "/x" (OObject ∅) ArgUndefined])
    = routes empty_scope ++ [Forwarded GET "/x" (OObject o) ArgUndefined]
    ∧ ∀ k : string, k ≠ "schema" → o !! k = None.
Proof.
  apply (X4_third_argument_dropped
           (Fixture.world true Scenario.async_disk) Scenario.users_handler
           (Call GET "/x" ArgUndefined (ArgFunction 0)) empty_scope).
  - vm_compute. discriminate.
  - vm_compute. discriminate.
  - vm_compute. reflexivity.
Defined.

(** X5: a registration call whose second argument is [null] always throws
    and forwards nothing: a ReferenceError when [fs] is unbound, a
    TypeError at line 170 otherwise, whether or not a schema file is
    there. *)
Theorem X5_null_options_always_throw (w : World) (handler : path) (m : http_method)
    (url : string) (a2 : arg) (s : scope) :
  intercept w handler (Call m url ArgNull a2) s
  = Raise (if global_fs w then TypeError else ReferenceError "fs").
Proof.
  unfold intercept. cbn [c_arg1 c_arg2 split_args typeof String.eqb Ascii.eqb Bool.eqb].
  unfold merge_schema, try_merge. rewrite fs_bound_global.
  destruct (global_fs w); [|done].
  by destruct (exists_sync w (schema_file handler)).
Qed.

(** ** The calls of a handler body *)

Lemma intercept_forwards (w : World) (handler : path) (c : call) (s s' : scope) :
  intercept w handler c s = Ok s' →
  ∃ f v,
    routes s' = routes s ++ [f]
    ∧ route_signature f = call_signature c
    ∧ get_schema (fw_options f) = Ok v
    ∧ schema s' = if Js.truthy v then <[route_key f := v]> (schema s) else schema s.
Proof.
  unfold intercept. destruct (split_args _ _) as [o route].
  destruct (merge_schema w handler o) as [o'|]; [|done].
  destruct (get_schema o') as [v|] eqn:Hv; [|done].
  intros [= <-]. eexists _, v. split; [done|]. split; [done|]. split; [done|].
  done.
Qed.


Lemma intercept_keeps_invariants (w : World) (handler : path) (c : call) (s s' : scope) :
  intercept w handler c s = Ok s' →
  table_backed s ∧ routes_recorded s →
  table_backed s' ∧ routes_recorded s'.
Proof.
  intros Hc [Hback Hrec].
  destruct (intercept_forwards _ _ _ _ _ Hc) as (f & v & Hroutes & _ & Hv & Htable).
  split.
  - intros k v0 Hk. rewrite Htable in Hk. rewrite Hroutes.
    destruct (Js.truthy v) eqn:Htruthy.
    + destruct (decide (route_key f = k)) as [<-|Hne].
      * rewrite lookup_insert_eq in Hk. injection Hk as <-.
        split; [done|]. exists f. split; [|done].
        apply elem_of_app. right. by apply list_elem_of_singleton.
      * rewrite lookup_insert_ne in Hk by done.
        destruct (Hback k v0 Hk) as (Ht & f0 & Hin & Hkey & Hget).
        split; [done|]. exists f0. split; [|done]. apply elem_of_app. by left.
    + destruct (Hback k v0 Hk) as (Ht & f0 & Hin & Hkey & Hget).
      split; [done|]. exists f0. split; [|done]. apply elem_of_app. by left.
  - intros f0 v0 Hin Hget Htruthy. rewrite Htable.
    rewrite Hroutes in Hin. apply elem_of_app in Hin as [Hin|Hin].
    + pose proof (Hrec f0 v0 Hin Hget Htruthy) as Hsome.
      destruct (Js.truthy v); [|done].
      destruct (decide (route_key f = route_key f0)) as [->|Hne].
      * rewrite lookup_insert_eq. eauto.
      * by rewrite lookup_insert_ne.
    + apply list_elem_of_singleton in Hin as ->.
      assert (v0 = v) as -> by congruence.
      rewrite Htruthy, lookup_insert_eq. eauto.
Qed.

Lemma run_body_keeps_invariants (w : World) (handler : path) (body : list call)
    (s : scope) :
  table_backed s ∧ routes_recorded s →
  table_backed (run_body w handler body s).2
  ∧ routes_recorded (run_body w handler body s).2.
Proof.
  revert s. induction body as [|c body IH]; intros s Hinv; [done|].
  cbn [run_body]. destruct (intercept w handler c s) as [s1|e] eqn:Hc; [|done].
  apply IH. by apply (intercept_keeps_invariants w handler c s).
Qed.

Lemma empty_scope_invariants : table_backed empty_scope ∧ routes_recorded empty_scope.
Proof.
  split.
  - intros k v Hk. cbn in Hk. by rewrite lookup_empty in Hk.
  - intros f v Hin. cbn in Hin. by apply elem_of_nil in Hin.
Qed.

(** X7: whatever a handler registers and however its loading ends, the
    schema table it leaves holds only truthy schemas, each of them
    forwarded with a call of the method and url of its key, and every call
    that was forwarded with a truthy schema has an entry under its key. *)
Theorem X7_table_matches_forwarded_calls (w : World) (handler : path) (fuel : nat)
    (r : loaded) :
  load_handler w handler fuel = Some r →
  table_backed (l_scope r) ∧ routes_recorded (l_scope r).
Proof.
  unfold load_handler. destruct (walk w handler fuel) as [[[ms|e] lks]|]; [| |done].
  - intros [= <-]. unfold compose.
    destruct (import_module w handler) as [ex|]; [|apply empty_scope_invariants].
    destruct (includes _); [|apply empty_scope_invariants].
    destruct (invoke w handler (default_or_module ex) empty_scope) as [res s1] eqn:Hinv.
    cbn [l_scope]. unfold invoke in Hinv.
    assert (s1 = empty_scope
            ∨ ∃ body, s1 = (run_body w handler body empty_scope).2) as [->|[body ->]].
    { destruct (default_or_module ex) as [[|f|tag]|]; try (left; congruence).
      destruct (f_kind f); try (left; congruence);
        right; exists (f_body f); by rewrite Hinv. }
    + apply empty_scope_invariants.
    + apply run_body_keeps_invariants, empty_scope_invariants.
  - intros [= <-]. apply empty_scope_invariants.
Qed.

Lemma X7_table_witness :
  table_backed (Scope {["get/x" := Scenario.file_a2_b3]}
                  [Forwarded GET "/x" (OObject {["schema" := Scenario.file_a2_b3]})
                             (ArgFunction 0)]).
Proof.
  apply (X7_table_matches_forwarded_calls
           (Fixture.world true Scenario.merge_disk) Scenario.users_handler 1
           (Loaded [] true
              (Scope {["get/x" := Scenario.file_a2_b3]}
                 [Forwarded GET "/x" (OObject {["schema" := Scenario.file_a2_b3]})
                            (ArgFunction 0)])
              (Ok tt))).
  vm_compute. reflexivity.
Defined.

(** ** The walk as a whole *)

Section WholeWalk.

Variable w : World.
Variable handler : path.

Lemma length_dirname (p : path) : length (dirname p) = length p - 1.
Proof. unfold dirname. rewrite removelast_firstn_len, length_take. lia. Qed.

Lemma level_searched_length (i : nat) :
  length (level_searched handler i) = length (dirname handler) - S i.
Proof. unfold level_searched. apply ancestor_length. Qed.

(** Once the root is searched and the walk goes on, it goes on for ever. *)
Lemma root_level_repeats (i j : nat) :
  length (dirname handler) ≤ S i → i < j →
  level_ending w handler i = Goes → level_ending w handler j = Goes.
Proof.
  intros Hroot Hij. unfold level_ending, level_pattern, level_searched, level_tested.
  rewrite (ancestor_short (S i)), (ancestor_short (S j) (dirname handler)) by lia.
  rewrite (ancestor_short (S j) handler)
    by (pose proof (length_dirname handler); lia).
  destruct (glob_sync w _) as [|m rest]; [done|].
  destruct (visit w m); [|done]. intros _. reflexivity.
Qed.

(** A walk that ends in level [n] has searched the root at most in that
    level. *)
Lemma ended_walk_below_root (n : nat) :
  (∀ i : nat, i < n → level_ending w handler i = Goes) →
  level_ending w handler n ≠ Goes →
  ∀ i : nat, i < n → S i < length (dirname handler).
Proof.
  intros Hgo Hstop i Hi.
  destruct (decide (S i < length (dirname handler))) as [|Hroot]; [done|].
  exfalso. apply Hstop. apply (root_level_repeats i n); [lia|done|by apply Hgo].
Qed.

Lemma end_at_not_goes (n : nat) e :
  end_at w handler n = Some e → level_ending w handler n ≠ Goes.
Proof. unfold end_at. by destruct (level_ending w handler n). Qed.

Lemma length_flat_map_short {A B} (f : A → list B) (l : list A) :
  (∀ x, length (f x) ≤ 1) → length (flat_map f l) ≤ length l.
Proof.
  intros Hshort. induction l as [|x l IH]; [done|].
  cbn [flat_map]. rewrite length_app. specialize (Hshort x). cbn. lia.
Qed.

(** The result of a walk does not depend on the fuel that let it end. *)
Lemma walk_result_unique (fuel1 fuel2 : nat) e1 e2 :
  walk w handler fuel1 = Some e1 → walk w handler fuel2 = Some e2 → e1 = e2.
Proof.
  intros H1 H2.
  destruct (walk_ends _ _ _ _ H1) as (n1 & _ & Hgo1 & Hend1).
  destruct (walk_ends _ _ _ _ H2) as (n2 & _ & Hgo2 & Hend2).
  assert (n1 = n2) as ->.
  { destruct (Nat.lt_trichotomy n1 n2) as [Hlt|[->|Hlt]]; [|done|].
    - exfalso. apply (end_at_not_goes _ _ Hend1). by apply Hgo2.
    - exfalso. apply (end_at_not_goes _ _ Hend2). by apply Hgo1. }
  congruence.
Qed.

End WholeWalk.

(** X8: a walk that ends never looks twice for the same pattern, makes at
    most as many lookups as the handler's directory is deep (one when that
    directory is the root), and collects at most one middleware for each
    of its lookups. *)
Theorem X8_ended_walk_is_bounded (w : World) (handler : path) (fuel : nat)
    (e : walk_end) :
  walk w handler fuel = Some e →
  NoDup (w_lookups e)
  ∧ length (w_lookups e) ≤ Nat.max 1 (length (dirname handler))
  ∧ ∀ ms, w_result e = Ok ms → length ms ≤ length (w_lookups e).
Proof.
  intros Hwalk. destruct (walk_ends _ _ _ _ Hwalk) as (n & _ & Hgo & Hend).
  pose proof (ended_walk_below_root w handler n Hgo (end_at_not_goes _ _ _ _ Hend))
    as Hbelow.
  rewrite (end_at_lookups _ _ _ _ Hend). split; [|split].
  - apply NoDup_fmap_2_strong; [|apply NoDup_seq].
    intros i j Hi Hj Heq.
    apply elem_of_seq in Hi. apply elem_of_seq in Hj.
    apply (f_equal length) in Heq. unfold level_pattern in Heq.
    rewrite !length_app, !level_searched_length in Heq. cbn in Heq.
    destruct (Nat.lt_trichotomy i j) as [Hlt|[->|Hlt]]; [|done|].
    + specialize (Hbelow i). lia.
    + specialize (Hbelow j). lia.
  - rewrite length_map, length_seq.
    destruct n as [|n]; [lia|]. specialize (Hbelow n). lia.
  - intros ms Hres. rewrite (end_at_result _ _ _ _ _ Hend Hres).
    rewrite length_map. apply length_flat_map_short. apply contribution_short.
Qed.

Lemma X8_ended_walk_witness :
  NoDup [["srv"; "api"; "handlers"; "middleware.*"]; ["srv"; "api"; "middleware.*"]].
Proof.
  apply (X8_ended_walk_is_bounded
           (Fixture.world true Scenario.boundary_disk) Scenario.boundary_handler 2
           (WalkEnd (Ok [Plugin Scenario.inner_middleware (HExport (Fixture.async []));
                         Plugin Scenario.outer_middleware (HExport (Fixture.async []))])
                    [["srv"; "api"; "handlers"; "middleware.*"];
                     ["srv"; "api"; "middleware.*"]])).
  vm_compute. reflexivity.
Defined.

(** X9: when no middleware file lies in the root directory, the walk ends
    within one iteration more than the handler's directory is deep; and
    whenever a walk ends, it ends the same way with any larger number of
    iterations allowed. *)
Theorem X9_walk_ends_unless_root_has_middleware (w : World) (handler : path) :
  (glob_sync w ["middleware.*"] = [] →
   is_Some (walk w handler (S (length (dirname handler)))))
  ∧ (∀ (fuel fuel' : nat) (e : walk_end),
        walk w handler fuel = Some e → fuel ≤ fuel' →
        walk w handler fuel' = Some e).
Proof.
  split; [apply walk_ends_below_root|].
  intros fuel fuel' e Hwalk Hle.
  destruct (walk_ends _ _ _ _ Hwalk) as (n & Hn & Hgo & Hend).
  unfold walk. rewrite <- (state_at_init w handler).
  destruct (walk_loop_reaches w handler fuel' 0 n) as [-> _]; [lia| |  |done].
  - intros i Hi. apply Hgo. lia.
  - by apply (end_at_not_goes w handler n e).
Qed.

(** ** One handler as a whole *)

(** X10: with [fs] bound, a middleware module that throws while it is
    imported aborts the handler: whatever the walk collected in the levels
    below, no middleware is registered, the handler module is not imported
    and its entry point is not called. *)
Theorem X10_middleware_load_failure_aborts (w : World) (handler : path) (n fuel : nat)
    (middleware : path) (rest : list path) :
  global_fs w = true →
  (∀ i : nat, i < n → level_ending w handler i = Goes) →
  glob_sync w (level_pattern handler n) = middleware :: rest →
  exists_sync w middleware = true →
  import_module w middleware = None →
  n < fuel →
  load_handler w handler fuel
  = Some (Loaded [] false empty_scope (Raise (LoadError middleware))).
Proof.
  intros Hfs Hgo Hglob Hex Himport Hfuel.
  assert (level_ending w handler n = Fails (LoadError middleware)) as Hn.
  { unfold level_ending, visit. by rewrite Hglob, fs_bound_global, Hfs, Hex, Himport. }
  unfold load_handler, walk. rewrite <- (state_at_init w handler).
  destruct (walk_loop_reaches w handler fuel 0 n) as [-> _]; [lia| |by rewrite Hn|].
  - intros i Hi. apply Hgo. lia.
  - unfold end_at. by rewrite Hn.
Qed.

Lemma X10_middleware_load_failure_witness :
  load_handler
    (Fixture.world true
       [(Scenario.users_handler, Fixture.ModuleFile (Some (Fixture.async [])));
        (["srv"; "api"; "middleware.js"], Fixture.ModuleFile None)])
    Scenario.users_handler 1
  = Some (Loaded [] false empty_scope (Raise (LoadError ["srv"; "api"; "middleware.js"]))).
Proof.
  apply (X10_middleware_load_failure_aborts _ Scenario.users_handler 0 1
           ["srv"; "api"; "middleware.js"] []).
  - reflexivity.
  - intros i Hi. lia.
  - vm_compute. reflexivity.
  - vm_compute. reflexivity.
  - vm_compute. reflexivity.
  - lia.
Defined.

(** X11: every plugin registered for a handler wraps an export whose tag
    is ['AsyncFunction'], taken from a module that imported without an
    exception, from a file that [fs.existsSync] confirmed, and that file
    is the first match of the glob in one of the levels of the walk; this
    only happens with [fs] bound. *)
Theorem X11_registered_plugins_are_vetted (w : World) (handler : path) (fuel : nat)
    (r : loaded) (pl : plugin) :
  load_handler w handler fuel = Some r →
  pl ∈ l_registered r →
  global_fs w = true
  ∧ to_string_tag (wrapped pl) = Some "AsyncFunction"
  ∧ exists_sync w (source pl) = true
  ∧ (∃ e, import_module w (source pl) = Some e ∧ wrapped pl = default_or_module e)
  ∧ ∃ i : nat, head (glob_sync w (level_pattern handler i)) = Some (source pl).
Proof.
  intros Hload Hin. unfold load_handler in Hload.
  destruct (walk w handler fuel) as [[[ms|err] lks]|] eqn:Hwalk; [| |done].
  - injection Hload as <-. rewrite compose_registers in Hin.
    apply list_elem_of_In, in_rev in Hin.
    destruct (walk_ends _ _ _ _ Hwalk) as (n & _ & _ & Hend).
    rewrite (end_at_result _ _ _ _ ms Hend eq_refl) in Hin.
    apply in_flat_map in Hin as (i & _ & Hpl).
    unfold contribution in Hpl.
    destruct (glob_sync w (level_pattern handler i)) as [|m rest] eqn:Hglob; [done|].
    unfold visit in Hpl. rewrite fs_bound_global in Hpl.
    destruct (global_fs w); [|done].
    destruct (exists_sync w m) eqn:Hex; [|done].
    destruct (import_module w m) as [e|] eqn:Himport; [|done].
    destruct (bool_decide _) eqn:Htag; [|done].
    destruct Hpl as [<-|[]]. cbn [source wrapped].
    apply bool_decide_eq_true in Htag.
    split; [done|]. split; [done|]. split; [done|]. split; [by exists e|].
    exists i. by rewrite Hglob.
  - injection Hload as <-. by apply elem_of_nil in Hin.
Qed.

Lemma X11_registered_plugins_witness :
  to_string_tag (HExport (Fixture.async [])) = Some "AsyncFunction".
Proof.
  apply (X11_registered_plugins_are_vetted
           (Fixture.world true Scenario.boundary_disk) Scenario.boundary_handler 2
           (Loaded [Plugin Scenario.outer_middleware (HExport (Fixture.async []));
                    Plugin Scenario.inner_middleware (HExport (Fixture.async []))]
                   true empty_scope (Ok tt))
           (Plugin Scenario.outer_middleware (HExport (Fixture.async [])))).
  - vm_compute. reflexivity.
  - apply list_elem_of_In. by left.
Defined.

(** X12: the entry point of a handler module is called only after the walk
    ended without an exception, the module imported and its tag was found
    to be ['AsyncFunction'] or ['Function']; a handler whose entry point is
    not called forwards no call and records no schema, whatever became of
    its middleware. *)
Theorem X12_entry_point_called_only_when_recognised (w : World) (handler : path)
    (fuel : nat) (r : loaded) :
  load_handler w handler fuel = Some r →
  (l_invoked r = true →
     ∃ ms lks e,
       walk w handler fuel = Some (WalkEnd (Ok ms) lks)
       ∧ l_registered r = rev ms
       ∧ import_module w handler = Some e
       ∧ (to_string_tag (default_or_module e) = Some "AsyncFunction"
          ∨ to_string_tag (default_or_module e) = Some "Function"))
  ∧ (l_invoked r = false → l_scope r = empty_scope).
Proof.
  intros Hload. unfold load_handler in Hload.
  destruct (walk w handler fuel) as [[[ms|err] lks]|] eqn:Hwalk; [| |done].
  - injection Hload as <-. unfold compose.
    destruct (import_module w handler) as [e|] eqn:Himport; [|by split].
    destruct (includes (to_string_tag (default_or_module e))) eqn:Htag.
    + destruct (invoke w handler (default_or_module e) empty_scope) as [res s1].
      split; [|done]. intros _. exists ms, lks, e.
      split; [done|]. split; [done|]. split; [done|].
      unfold includes in Htag.
      destruct (to_string_tag (default_or_module e)) as [t|]; [|done].
      apply bool_decide_eq_true in Htag. unfold recognised in Htag.
      apply elem_of_cons in Htag as [->|Htag]; [by left|].
      apply list_elem_of_singleton in Htag as ->. by right.
    + by split.
  - injection Hload as <-. by split.
Qed.

Lemma X12_entry_point_witness :
  l_scope (Loaded [] false empty_scope (Ok tt)) = empty_scope.
Proof.
  apply (X12_entry_point_called_only_when_recognised
           (Fixture.world true Scenario.plain_disk) Scenario.users_handler 1).
  - vm_compute. reflexivity.
  - reflexivity.
Defined.

(** * Properties of [bootstrap] *)

Lemma union_lookup_left_first {A} (a b : gmap string A) (k : string) :
  (a ∪ b) !! k = match a !! k with Some v => Some v | None => b !! k end.
Proof.
  destruct (a !! k) as [v|] eqn:Ha.
  - by apply lookup_union_Some_l.
  - by rewrite lookup_union_r.
Qed.

Lemma bootstrap_ok (b : Boot) (r : booted) :
  bootstrap b = Ok r →
  ∃ server,
    import_custom b (head (server_glob b)) = Some server
    ∧ b_options r
      = fastify_options (if setting_truthy (sm_config server) then sm_config server
                         else SObject ∅)
    ∧ b_registered r
      = builtin_registrations
        ++ (if bool_decide (to_string_tag (server_handle server) = Some "AsyncFunction")
            then [CustomServer (server_handle server)] else [])
        ++ [NotFoundHandler; ErrorHandler; RouteLoader]
    ∧ b_rejected_custom r
      = negb (bool_decide (to_string_tag (server_handle server) = Some "AsyncFunction")).
Proof.
  unfold bootstrap.
  destruct (import_custom b (head (server_glob b))) as [server|]; [|done].
  intros [= <-]. exists server. cbn.
  by destruct (bool_decide (to_string_tag (server_handle server) = Some "AsyncFunction")).
Qed.

(** X13: [bootstrap] always imports the first match of [server.*], also
    when there is none, and it throws when that import does: without a
    custom server file it throws before the instance is created unless the
    specifier [undefined] happens to resolve to a module. *)
Theorem X13_bootstrap_needs_the_custom_import (b : Boot) :
  (∀ r, bootstrap b = Ok r → is_Some (import_custom b (head (server_glob b))))
  ∧ (import_custom b (head (server_glob b)) = None → ∃ e, bootstrap b = Raise e)
  ∧ (server_glob b = [] → import_custom b None = None →
     bootstrap b = Raise (LoadError ["undefined"])).
Proof.
  split; [|split].
  - intros r Hr. destruct (bootstrap_ok b r Hr) as (server & Himport & _). eauto.
  - intros Himport. unfold bootstrap. rewrite Himport. eauto.
  - intros Hglob Himport. unfold bootstrap. rewrite Hglob. cbn. by rewrite Himport.
Qed.

(** X14: whatever the custom server exports as [config], the options handed
    to [fastify] keep [genReqId] and the plugin list of [ajv], whose
    object has no other property than [customOptions]; and every option
    and every ajv custom option that has a default is present. *)
Theorem X14_config_cannot_displace_ajv_and_genReqId (b : Boot) (r : booted) :
  bootstrap b = Ok r →
  b_options r !! "genReqId" = Some (SRef "genReqId")
  ∧ (∃ custom : gmap string setting,
        b_options r !! "ajv"
        = Some (SObject (<["plugins" := ajv_plugins]>
                           (<["customOptions" := SObject custom]> ∅)))
        ∧ ∀ k : string, is_Some (ajv_defaults !! k) → is_Some (custom !! k))
  ∧ ∀ k : string, is_Some (fastify_defaults !! k) → is_Some (b_options r !! k).
Proof.
  intros Hr. destruct (bootstrap_ok b r Hr) as (server & _ & -> & _).
  set (override := if setting_truthy (sm_config server) then sm_config server
                   else SObject ∅).
  unfold fastify_options. split; [by rewrite lookup_insert_eq|]. split.
  - eexists. rewrite lookup_insert_ne by done. rewrite lookup_insert_eq.
    split; [reflexivity|].
    intros k Hk. rewrite union_lookup_left_first.
    destruct (setting_props _ !! k); [eauto|done].
  - intros k Hk.
    destruct (decide (k = "genReqId")) as [->|Hg]; [by rewrite lookup_insert_eq|].
    rewrite lookup_insert_ne by done.
    destruct (decide (k = "ajv")) as [->|Ha]; [by rewrite lookup_insert_eq|].
    rewrite lookup_insert_ne by done.
    rewrite union_lookup_left_first.
    destruct (setting_props override !! k); [eauto|done].
Qed.

Lemma X14_config_witness :
  fastify_options (SObject {["genReqId" := SRef "mine"]}) !! "genReqId"
  = Some (SRef "genReqId").
Proof.
  apply (X14_config_cannot_displace_ajv_and_genReqId
           {| server_glob := [["srv"; "server.js"]];
              import_custom := fun _ =>
                Some (ServerModule (SObject {["genReqId" := SRef "mine"]}) EFalsy EFalsy) |}
           (Booted (fastify_options (SObject {["genReqId" := SRef "mine"]}))
                   (builtin_registrations ++ [NotFoundHandler; ErrorHandler; RouteLoader])
                   true)).
  reflexivity.
Defined.

(** X15: a truthy [config] wins over the defaults: each of its properties
    other than [ajv] and [genReqId] reaches [fastify] with the value the
    custom server gave it, and each property of its [ajv.customOptions]
    reaches the ajv custom options likewise; a property it does not set
    keeps its default. *)
Theorem X15_config_overrides_defaults (b : Boot) (r : booted) (server : server_module) :
  bootstrap b = Ok r →
  import_custom b (head (server_glob b)) = Some server →
  setting_truthy (sm_config server) = true →
  (∀ k : string, k ≠ "ajv" → k ≠ "genReqId" →
      b_options r !! k
      = match setting_props (sm_config server) !! k with
        | Some v => Some v
        | None => fastify_defaults !! k
        end)
  ∧ ∃ custom : gmap string setting,
      b_options r !! "ajv"
      = Some (SObject (<["plugins" := ajv_plugins]>
                         (<["customOptions" := SObject custom]> ∅)))
      ∧ ∀ k : string,
          custom !! k
          = match setting_props
                    (optional_get (optional_get (sm_config server) "ajv") "customOptions")
                  !! k with
            | Some v => Some v
            | None => ajv_defaults !! k
            end.
Proof.
  intros Hr Himport Htruthy.
  destruct (bootstrap_ok b r Hr) as (server' & Himport' & -> & _).
  assert (server' = server) as -> by congruence. rewrite Htruthy.
  unfold fastify_options. split.
  - intros k Ha Hg. rewrite !lookup_insert_ne by done.
    apply union_lookup_left_first.
  - eexists. rewrite lookup_insert_ne by done. rewrite lookup_insert_eq.
    split; [reflexivity|]. intros k. apply union_lookup_left_first.
Qed.

Lemma X15_config_overrides_witness :
  fastify_options (SObject {["trustProxy" := SValue (Js.VBool false)]}) !! "trustProxy"
  = match setting_props (SObject {["trustProxy" := SValue (Js.VBool false)]})
            !! "trustProxy" with
    | Some v => Some v
    | None => fastify_defaults !! "trustProxy"
    end.
Proof.
  apply (X15_config_overrides_defaults
           {| server_glob := [["srv"; "server.js"]];
              import_custom := fun _ =>
                Some (ServerModule (SObject {["trustProxy" := SValue (Js.VBool false)]})
                                   EFalsy EFalsy) |}
           (Booted (fastify_options (SObject {["trustProxy" := SValue (Js.VBool false)]}))
                   (builtin_registrations ++ [NotFoundHandler; ErrorHandler; RouteLoader])
                   true)
           (ServerModule (SObject {["trustProxy" := SValue (Js.VBool false)]})
                         EFalsy EFalsy));
    try reflexivity; done.
Defined.

(** X16: every [bootstrap] that succeeds registers the six plugins and the
    request hook first and the route loader last; the custom server is
    registered, between them, exactly when the first truthy one of its
    [instance] export, its [default] export and its namespace carries the
    tag ['AsyncFunction'], and otherwise the error of line 35 is logged
    and the bootstrap goes on without it. *)
Theorem X16_registration_order (b : Boot) (r : booted) (server : server_module) :
  bootstrap b = Ok r →
  import_custom b (head (server_glob b)) = Some server →
  builtin_registrations `prefix_of` b_registered r
  ∧ last (b_registered r) = Some RouteLoader
  ∧ (∀ h : handle,
        CustomServer h ∈ b_registered r
        ↔ h = server_handle server ∧ to_string_tag h = Some "AsyncFunction")
  ∧ (b_rejected_custom r = true
     ↔ to_string_tag (server_handle server) ≠ Some "AsyncFunction").
Proof.
  intros Hr Himport.
  destruct (bootstrap_ok b r Hr) as (server' & Himport' & _ & -> & ->).
  assert (server' = server) as -> by congruence.
  split; [by eexists|]. split.
  { by destruct (bool_decide _). }
  split.
  - intros h.
    assert (CustomServer h ∉ builtin_registrations) as Hfirst.
    { unfold builtin_registrations. intros Hin.
      repeat (apply elem_of_cons in Hin as [Hin|Hin]; [discriminate Hin|]).
      by apply elem_of_nil in Hin. }
    assert (CustomServer h ∉ [NotFoundHandler; ErrorHandler; RouteLoader]) as Hlast.
    { intros Hin.
      repeat (apply elem_of_cons in Hin as [Hin|Hin]; [discriminate Hin|]).
      by apply elem_of_nil in Hin. }
    rewrite !elem_of_app. destruct (bool_decide _) eqn:Htag.
    + apply bool_decide_eq_true in Htag. rewrite list_elem_of_singleton. split.
      * intros [Hin|[Hin|Hin]]; [done| |done]. injection Hin as ->. done.
      * intros [-> _]. right. by left.
    + apply bool_decide_eq_false in Htag. split.
      * intros [Hin|[Hin|Hin]]; [done| |done]. by apply elem_of_nil in Hin.
      * intros [-> Hh]. done.
  - destruct (bool_decide _) eqn:Htag; cbn.
    + apply bool_decide_eq_true in Htag. split; [done|]. intros Hne. done.
    + apply bool_decide_eq_false in Htag. done.
Qed.

Lemma X16_registration_order_witness :
  last (builtin_registrations ++ [NotFoundHandler; ErrorHandler; RouteLoader])
  = Some RouteLoader.
Proof.
  apply (X16_registration_order
           {| server_glob := [["srv"; "server.js"]];
              import_custom := fun _ => Some (ServerModule (SObject ∅) EFalsy EFalsy) |}
           (Booted (fastify_options (SObject ∅))
                   (builtin_registrations ++ [NotFoundHandler; ErrorHandler; RouteLoader])
                   true)
           (ServerModule (SObject ∅) EFalsy EFalsy));
    reflexivity.
Defined.

(** X17: a custom server module that exports neither a truthy [instance]
    nor a truthy [default] (one that only exports [config], say) is never
    registered, and line 35 logs that the custom server must be an async
    function: the namespace object stands in as the handle, and its tag is
    ['Module']. *)
Theorem X17_config_only_server_is_reported (b : Boot) (r : booted)
    (server : server_module) :
  bootstrap b = Ok r →
  import_custom b (head (server_glob b)) = Some server →
  sm_instance server = EFalsy →
  sm_default server = EFalsy →
  b_rejected_custom r = true
  ∧ b_registered r
    = builtin_registrations ++ [NotFoundHandler; ErrorHandler; RouteLoader].
Proof.
  intros Hr Himport Hinst Hdef.
  destruct (bootstrap_ok b r Hr) as (server' & Himport' & _ & -> & ->).
  assert (server' = server) as -> by congruence.
  unfold server_handle. rewrite Hinst, Hdef. by cbn.
Qed.

Lemma X17_config_only_server_witness :
  true = true
  ∧ builtin_registrations ++ [NotFoundHandler; ErrorHandler; RouteLoader]
    = builtin_registrations ++ [NotFoundHandler; ErrorHandler; RouteLoader].
Proof.
  apply (X17_config_only_server_is_reported
           {| server_glob := [["srv"; "server.js"]];
              import_custom := fun _ =>
                Some (ServerModule (SObject {["trustProxy" := SValue (Js.VBool false)]})
                                   EFalsy EFalsy) |}
           (Booted (fastify_options (SObject {["trustProxy" := SValue (Js.VBool false)]}))
                   (builtin_registrations ++ [NotFoundHandler; ErrorHandler; RouteLoader])
                   true)
           (ServerModule (SObject {["trustProxy" := SValue (Js.VBool false)]})
                         EFalsy EFalsy));
    reflexivity.
Defined.

(** * Where a walk can look *)

Lemma removelast_take (p : path) (m : nat) :
  m ≤ length p → removelast (take m p) = take (m - 1) p.
Proof.
  intros Hm. rewrite removelast_firstn_len, length_take, take_take.
  f_equal. lia.
Qed.

Lemma ancestor_take (n : nat) (p : path) : ancestor n p = take (length p - n) p.
Proof.
  induction n as [|n IH].
  - cbn. by rewrite Nat.sub_0_r, firstn_all.
  - unfold ancestor in *. rewrite Nat.iter_succ, IH, removelast_take by lia.
    f_equal. lia.
Qed.

(** X18: however long a walk runs, each of its lookups is for
    [middleware.*] in a directory on the path from the root to the
    handler's directory, and never in the handler's own directory unless
    that is the root: files in the handler's directory, below it or in
    sibling directories are never looked at. *)
Theorem X18_lookups_stay_on_the_ancestor_chain (w : World) (handler : path)
    (fuel : nat) (p : path) :
  p ∈ walk_trace w handler fuel walk_init →
  ∃ d : path,
    p = d ++ ["middleware.*"]
    ∧ d `prefix_of` dirname handler
    ∧ (dirname handler ≠ [] → length d < length (dirname handler)).
Proof.
  intros Hin.
  destruct (walk_trace_at w handler fuel 0) as (n & _ & _ & Htrace & _).
  rewrite state_at_init in Htrace. rewrite Htrace in Hin.
  apply list_elem_of_fmap in Hin as (i & -> & _).
  exists (level_searched handler i). split; [done|].
  unfold level_searched. rewrite ancestor_take. split.
  - apply prefix_take.
  - intros Hne. rewrite length_take.
    destruct (dirname handler) as [|x xs]; [done|]. cbn [length]. lia.
Qed.

Lemma X18_lookups_witness :
  ∃ d : path,
    ["srv"; "api"; "middleware.*"] = d ++ ["middleware.*"]
    ∧ d `prefix_of` dirname Scenario.users_handler
    ∧ (dirname Scenario.users_handler ≠ []
       → length d < length (dirname Scenario.users_handler)).
Proof.
  apply (X18_lookups_stay_on_the_ancestor_chain
           (Fixture.world true Scenario.async_disk) Scenario.users_handler 1).
  vm_compute. apply list_elem_of_In. by left.
Defined.
